(** * data_batcher: reading tokenized SQuAD data, truncating, padding and
      batching it

    A shallow embedding of [code/data_batcher.py].  Python lists are Rocq
    lists, [str] is [string] (a sequence of 8-bit characters, as in
    Python 2), dictionaries are stdpp's [gmap], Python's unbounded [int] is
    [Z], its [float] is the primitive binary64 [float], and the sizes given
    in the configuration ([batch_size], [context_len], [question_len],
    [word_len], [num_feats]) are natural numbers.  Exceptions are carried by
    the [result] type; the three open files and the random generator are
    threaded explicitly. *)

From Stdlib Require Import ZArith Ascii String List Permutation Sorted Floats Uint63.
From stdpp Require Import base option list sorting gmap strings.
Import ListNotations.

Local Open Scope string_scope.
Local Open Scope list_scope.
Local Open Scope Z_scope.

(** ** Exceptions *)

Inductive exn : Set :=
| ValueError
| AssertionError.

Inductive result (A : Type) : Type :=
| Ok (a : A)
| Raise (e : exn).
Arguments Ok {A} a.
Arguments Raise {A} e.

Definition rbind {A B : Type} (r : result A) (k : A -> result B) : result B :=
  match r with
  | Ok a => k a
  | Raise e => Raise e
  end.

Declare Scope result_scope.
Delimit Scope result_scope with result.
Notation "'do' x <- r ; k" := (rbind r (fun x => k))
  (at level 10, x pattern, r at level 100, k at level 200) : result_scope.
Local Open Scope result_scope.

(* Decimal float literals denote the nearest double, as in Python. *)
#[local] Set Warnings "-inexact-float".

(** ** The Python built-ins the module relies on *)

Module Py.

(** The characters [str.strip] and [str.split] treat as whitespace:
    space, [\t], [\n], [\x0b], [\x0c] and [\r]. *)
Definition isspace (c : ascii) : bool :=
  let n := nat_of_ascii c in
  (n =? 32)%nat || ((9 <=? n)%nat && (n <=? 13)%nat).

(** [c.lower()] for one 8-bit character. *)
Definition lower_char (c : ascii) : ascii :=
  let n := nat_of_ascii c in
  if ((65 <=? n)%nat && (n <=? 90)%nat)%bool then ascii_of_nat (n + 32) else c.

Definition chars (s : string) : list ascii := list_ascii_of_string s.

(** [s.lower()], as the list of its characters. *)
Definition lower (s : string) : list ascii := map lower_char (chars s).

(** [s.split()]: the maximal runs of characters that are not whitespace.
    [cur] holds the run being read, reversed. *)
Fixpoint split_go (cur : list ascii) (s : list ascii) : list string :=
  match s with
  | [] => match cur with
          | [] => []
          | _ => [string_of_list_ascii (rev cur)]
          end
  | c :: s' =>
      if isspace c then
        match cur with
        | [] => split_go [] s'
        | _ => string_of_list_ascii (rev cur) :: split_go [] s'
        end
      else split_go (c :: cur) s'
  end.

Definition split (s : string) : list string := split_go [] (chars s).

(** [s.strip()]. *)
Fixpoint lstrip (s : list ascii) : list ascii :=
  match s with
  | c :: s' => if isspace c then lstrip s' else s
  | [] => []
  end.

Definition strip (s : string) : string :=
  string_of_list_ascii (rev (lstrip (rev (lstrip (chars s))))).

(** [re.split(" ", s)]: cut at every single space, empty pieces kept. *)
Fixpoint re_split_space_go (cur : list ascii) (s : list ascii) : list string :=
  match s with
  | [] => [string_of_list_ascii (rev cur)]
  | c :: s' =>
      if Ascii.eqb c " "%char
      then string_of_list_ascii (rev cur) :: re_split_space_go [] s'
      else re_split_space_go (c :: cur) s'
  end.

Definition re_split_space (s : string) : list string :=
  re_split_space_go [] (chars s).

(** Truth value of a string: non-empty. *)
Definition truthy (s : string) : bool :=
  match s with
  | EmptyString => false
  | _ => true
  end.

Definition digit (c : ascii) : option Z :=
  let n := nat_of_ascii c in
  if ((48 <=? n)%nat && (n <=? 57)%nat)%bool then Some (Z.of_nat (n - 48)) else None.

Fixpoint digits (acc : Z) (s : list ascii) : option Z :=
  match s with
  | [] => Some acc
  | c :: s' =>
      match digit c with
      | Some d => digits (10 * acc + d) s'
      | None => None
      end
  end.

(** [int(s)] on a piece without whitespace: an optional sign and at least
    one decimal digit, [ValueError] otherwise. *)
Definition int (s : string) : result Z :=
  let unsigned (ds : list ascii) : option Z :=
    match ds with
    | [] => None
    | _ => digits 0 ds
    end in
  let r :=
    match chars s with
    | "-"%char :: ds => Z.opp <$> unsigned ds
    | "+"%char :: ds => unsigned ds
    | ds => unsigned ds
    end in
  match r with
  | Some z => Ok z
  | None => Raise ValueError
  end.

(** [l[:n]] for [0 <= n]. *)
Definition take {A : Type} (n : nat) (l : list A) : list A := firstn n l.

(** A slice index brought into [0 .. len], as Python does for [l[i:j]]:
    a negative index counts from the end. *)
Definition clamp (len : nat) (i : Z) : nat :=
  if i <? 0 then Z.to_nat (Z.max 0 (i + Z.of_nat len))
  else Nat.min (Z.to_nat i) len.

(** [l[i:j]]. *)
Definition slice {A : Type} (i j : Z) (l : list A) : list A :=
  let lo := clamp (length l) i in
  let hi := clamp (length l) j in
  firstn (hi - lo) (skipn lo l).

(** [max(l)] on a list of naturals, [ValueError] on the empty list. *)
Definition max (l : list nat) : result nat :=
  match l with
  | [] => Raise ValueError
  | x :: l' => Ok (fold_left Nat.max l' x)
  end.

(** [sum] of a list of booleans. *)
Definition sum_bool (l : list bool) : Z :=
  fold_left (fun acc (b : bool) => acc + (if b then 1 else 0)) l 0.

(** The integer value of a boolean, [int(b)]. *)
Definition int_of_bool (b : bool) : Z := if b then 1 else 0.

(** The line terminator. *)
Definition nl : string := String (ascii_of_nat 10) EmptyString.

(** [float(n)] for a count [n]; exact below [2^53], far above the length
    of any line. *)
Definition float_of_nat (n : nat) : float :=
  PrimFloat.of_uint63 (Uint63.of_Z (Z.of_nat n)).

End Py.

(** A number stored in a feature tuple: an [int] or a [float]. *)
Inductive pynum : Set :=
| PyInt (z : Z)
| PyFloat (f : float).

(** ** The module-level helpers *)

Definition split_by_whitespace (sentence : string) : list string :=
  let words :=
    flat_map Py.re_split_space (Py.split (Py.strip sentence)) in
  List.filter (fun w => Py.truthy w) words.

Fixpoint mapM {A B : Type} (f : A -> result B) (l : list A) : result (list B) :=
  match l with
  | [] => Ok []
  | x :: l' => do y <- f x; do ys <- mapM f l'; Ok (y :: ys)
  end.

Definition intstr_to_intlist (s : string) : result (list Z) :=
  mapM Py.int (Py.split s).

(** [FreqDist(samples)]: the number of occurrences of each sample. *)
Definition FreqDist (samples : list string) : gmap string nat :=
  fold_left (fun fdist w => <[w := S (default 0%nat (fdist !! w))]> fdist) samples ∅.

(** [fdist.values()]. *)
Definition values (fdist : gmap string nat) : list nat := (map_to_list fdist).*2.

(** [fdist[w]], zero for a sample never seen. *)
Definition fdist_get (fdist : gmap string nat) (w : string) : nat :=
  default 0%nat (fdist !! w).

(** The character table of [refill_batches]. *)
Definition char2id : gmap ascii Z :=
  list_to_map
    [("a", 2); ("b", 3); ("c", 4); ("d", 5); ("e", 6); ("f", 7); ("g", 8);
     ("h", 9); ("i", 10); ("j", 11); ("k", 12); ("l", 13); ("m", 14); ("n", 15);
     ("o", 16); ("p", 17); ("q", 18); ("r", 19); ("s", 20); ("t", 21); ("u", 22);
     ("v", 23); ("w", 24); ("x", 25); ("y", 26); ("z", 27); ("0", 28); ("1", 29);
     ("2", 30); ("3", 31); ("4", 32); ("5", 33); ("6", 34); ("7", 35); ("8", 36);
     ("9", 37); (".", 38); (",", 39); (ascii_of_nat 34, 40); ("?", 41);
     ("'", 42)]%char.

(** The smoothing constant [a = 0.4]. *)
Definition a : float := 0.4%float.

(** One example, the 13-tuple appended to [examples]. *)
Record example : Type := Example {
  ex_context_ids : list Z;
  ex_context_tokens : list string;
  ex_qn_ids : list Z;
  ex_qn_tokens : list string;
  ex_ans_span : list Z;
  ex_ans_tokens : list string;
  ex_feats : list (list pynum);
  ex_char_ids : list (list Z);
  ex_commonQ_mask : list bool;
  ex_commonQ_emb_indices : list Z;
  ex_charQ_ids : list (list Z);
  ex_commonC_mask : list bool;
  ex_commonC_emb_indices : list Z
}.

(** What one pass through the loop body does with its line-triple:
    [continue] without an example, or append one. *)
Inductive outcome : Type :=
| Skipped
| Kept (e : example).

(** A pending batch, the 13-tuple of lists appended to [batches]. *)
Record raw_batch : Type := RawBatch {
  context_ids_batch : list (list Z);
  context_tokens_batch : list (list string);
  qn_ids_batch : list (list Z);
  qn_tokens_batch : list (list string);
  ans_span_batch : list (list Z);
  ans_tokens_batch : list (list string);
  feats_batch : list (list (list pynum));
  char_ids_batch : list (list (list Z));
  commonQ_mask_batch : list (list bool);
  commonQ_emb_indices_batch : list (list Z);
  charQ_ids_batch : list (list (list Z));
  commonC_mask_batch : list (list bool);
  commonC_emb_indices_batch : list (list Z)
}.

(** The class [Batch].  An array is the nested list it is built from. *)
Module Batch.
Record t : Type := Make {
  context_ids : list (list Z);
  context_mask : list (list Z);
  context_tokens : list (list string);
  qn_ids : list (list Z);
  qn_mask : list (list Z);
  qn_tokens : list (list string);
  ans_span : list (list Z);
  ans_tokens : list (list string);
  uuids : option (list string);
  batch_size : nat;
  feats : list (list (list pynum));
  char_ids : list (list (list Z));
  char_mask : list (list (list Z));
  charQ_ids : list (list (list Z));
  charQ_mask : list (list (list Z));
  commonQ_mask : list (list bool);
  commonQ_emb_indices : list (list Z);
  commonC_mask : list (list bool);
  commonC_emb_indices : list (list Z)
}.

(** [Batch.__init__]. *)
Definition init (context_ids context_mask : list (list Z))
    (context_tokens : list (list string)) (qn_ids qn_mask : list (list Z))
    (qn_tokens : list (list string)) (ans_span : list (list Z))
    (ans_tokens : list (list string)) (feats : list (list (list pynum)))
    (char_ids char_mask : list (list (list Z))) (commonQ_mask : list (list bool))
    (commonQ_emb_indices : list (list Z)) (charQ_ids charQ_mask : list (list (list Z)))
    (commonC_mask : list (list bool)) (commonC_emb_indices : list (list Z))
    (uuids : option (list string)) : t :=
  Make context_ids context_mask context_tokens qn_ids qn_mask qn_tokens
    ans_span ans_tokens uuids (length context_tokens) feats char_ids char_mask
    charQ_ids charQ_mask commonQ_mask commonQ_emb_indices commonC_mask
    commonC_emb_indices.
End Batch.

(** An open file: the lines not read yet, without their terminators. *)
Definition file : Type := list string.

(** [f.readline()]: the next line with its terminator, or the empty string
    at the end of the file. *)
Definition readline (f : file) : string * file :=
  match f with
  | [] => (EmptyString, [])
  | l :: f1 => (String.append l Py.nl, f1)
  end.

Record files : Type := Files {
  context_file : file;
  qn_file : file;
  ans_file : file
}.

(** [sorted(l, key=key)]: the stable sort by [key]. *)
Fixpoint insert_by {A : Type} (key : A -> nat) (x : A) (l : list A) : list A :=
  match l with
  | [] => [x]
  | y :: l' => if (key x <=? key y)%nat then x :: l else y :: insert_by key x l'
  end.

Definition sorted {A : Type} (key : A -> nat) (l : list A) : list A :=
  foldr (insert_by key) [] l.

(** [xrange(0, stop, step)] for a step that is not negative. *)
Definition xrange (stop step : nat) : result (list nat) :=
  if (step =? 0)%nat then Raise ValueError
  else Ok (map (fun k => (k * step)%nat) (seq 0 ((stop + step - 1) / step))).

(** The random generator: the supply of its future draws, one for each
    call of [random()]. *)
Definition rng : Type := list nat.

(** [int(random() * n)] for [0 < n]: some number below [n], here the next
    draw reduced modulo [n] (0 once the supply is used up). *)
Definition randbelow (n : nat) (g : rng) : nat * rng :=
  match g with
  | [] => (0%nat, [])
  | r :: g' => ((r mod n)%nat, g')
  end.

(** [x[i], x[j] = x[j], x[i]]. *)
Definition swap {A : Type} (x : list A) (i j : nat) : list A :=
  match x !! i, x !! j with
  | Some xi, Some xj => <[j := xi]> (<[i := xj]> x)
  | _, _ => x
  end.

(** [random.shuffle(x)]: for [i] from [len(x) - 1] down to 1 the element
    at [i] is exchanged with the one at [j = int(random() * (i+1))].
    [shuffle_from i] is that loop from index [i] down to 1. *)
Fixpoint shuffle_from {A : Type} (i : nat) (x : list A) (g : rng) : list A * rng :=
  match i with
  | O => (x, g)
  | S i' =>
      let '(j, g') := randbelow (i + 1) g in
      shuffle_from i' (swap x i j) g'
  end.

Definition shuffle {A : Type} (x : list A) (g : rng) : list A * rng :=
  shuffle_from (length x - 1) x g.

(** The transposition of a slice of [examples] into a tuple of lists. *)
Definition zip_star (chunk : list example) : raw_batch :=
  RawBatch (map ex_context_ids chunk) (map ex_context_tokens chunk)
    (map ex_qn_ids chunk) (map ex_qn_tokens chunk) (map ex_ans_span chunk)
    (map ex_ans_tokens chunk) (map ex_feats chunk) (map ex_char_ids chunk)
    (map ex_commonQ_mask chunk) (map ex_commonQ_emb_indices chunk)
    (map ex_charQ_ids chunk) (map ex_commonC_mask chunk)
    (map ex_commonC_emb_indices chunk).

(** The state of a generator between two batches. *)
Record gen_state : Type := GenState {
  g_files : files;
  g_batches : list raw_batch;
  g_rng : rng
}.

(** How a run of the generator stands after some batches: the consumer
    stopped asking, the generator returned, or an exception left it. *)
Inductive ending : Set :=
| Suspended
| Exhausted
| Raised (e : exn).

(** The number of occurrences of [w] among the context tokens, and the
    largest such number: the two quantities the term frequency is stated
    with. *)
Definition freq (context_tokens : list string) (w : string) : nat :=
  count_occ string_dec context_tokens w.

Definition max_freq (context_tokens : list string) : nat :=
  list_max (map (freq context_tokens) context_tokens).

(** The consecutive slices of [l] of [size] elements each: what the [for]
    loop of [refill_batches] cuts the sorted pool into. *)
Definition slices {A : Type} (size : nat) (l : list A) : list (list A) :=
  map (fun k => take size (drop (k * size) l))
      (seq 0 ((length l + size - 1) / size)).

(** How many lists of [ls] hold fewer than [size] elements. *)
Fixpoint count_short {A : Type} (size : nat) (ls : list (list A)) : nat :=
  match ls with
  | [] => 0
  | l :: ls' => (if (length l <? size)%nat then 1 else 0) + count_short size ls'
  end.

(** Non-decreasing keys. *)
Definition sorted_by {A : Type} (key : A -> nat) (l : list A) : Prop :=
  StronglySorted (fun x y => (key x <= key y)%nat) l.

(** Some file has no line left. *)
Definition exhausted (fs : files) : Prop :=
  context_file fs = [] \/ qn_file fs = [] \/ ans_file fs = [].

(** A line just read from a file is empty only at the end of the file. *)
Definition fresh (line : string) (f : file) : Prop :=
  Py.truthy line = false -> f = [].

(** The sum of a row of a mask. *)
Definition row_sum (row : list Z) : Z := foldr Z.add 0 row.

(** The leading dimension of every array and list of a batch. *)
Definition leading_dims (b : Batch.t) : list nat :=
  [length (Batch.context_ids b); length (Batch.context_mask b);
   length (Batch.context_tokens b); length (Batch.qn_ids b);
   length (Batch.qn_mask b); length (Batch.qn_tokens b);
   length (Batch.ans_span b); length (Batch.ans_tokens b);
   length (Batch.feats b); length (Batch.char_ids b);
   length (Batch.char_mask b); length (Batch.charQ_ids b);
   length (Batch.charQ_mask b); length (Batch.commonQ_mask b);
   length (Batch.commonQ_emb_indices b); length (Batch.commonC_mask b);
   length (Batch.commonC_emb_indices b)].

(** The fields that run along the context, and those that run along the
    question, all of one length. *)
Definition context_aligned (n : nat) (e : example) : Prop :=
  length (ex_context_ids e) = n
  /\ length (ex_feats e) = n
  /\ length (ex_char_ids e) = n
  /\ length (ex_commonC_mask e) = n
  /\ length (ex_commonC_emb_indices e) = n.

Definition question_aligned (m : nat) (e : example) : Prop :=
  length (ex_qn_ids e) = m
  /\ length (ex_commonQ_mask e) = m
  /\ length (ex_commonQ_emb_indices e) = m
  /\ length (ex_charQ_ids e) = m.

(** A row extended on the right with [fill] up to [n] entries. *)
Definition pad_to {A : Type} (fill : A) (n : nat) (l : list A) : list A :=
  l ++ repeat fill (n - length l).

(** The rows of a batch that are not padded: for every example its context
    tokens, question tokens, span and answer tokens. *)
Definition batch_rows (b : Batch.t)
    : list (list string * (list string * (list Z * list string))) :=
  combine (Batch.context_tokens b)
    (combine (Batch.qn_tokens b)
       (combine (Batch.ans_span b) (Batch.ans_tokens b))).

Definition example_row (e : example)
    : list string * (list string * (list Z * list string)) :=
  (ex_context_tokens e, (ex_qn_tokens e, (ex_ans_span e, ex_ans_tokens e))).

(** The same rows, of a pending batch. *)
Definition raw_rows (b : raw_batch)
    : list (list string * (list string * (list Z * list string))) :=
  combine (context_tokens_batch b)
    (combine (qn_tokens_batch b)
       (combine (ans_span_batch b) (ans_tokens_batch b))).

(** Python's [zip] of the three files, line by line. *)
Fixpoint zip3 (cf qf af : file) : list (string * string * string) :=
  match cf, qf, af with
  | c :: cf', q :: qf', a :: af' => (c, q, a) :: zip3 cf' qf' af'
  | _, _, _ => []
  end.

(** A two-dimensional array with rows of [cols] entries, and a
    three-dimensional one with [cols] rows of [depth] entries each. *)
Definition shape2 {A : Type} (cols : nat) (a : list (list A)) : Prop :=
  Forall (fun r => length r = cols) a.

Definition shape3 {A : Type} (cols depth : nat) (a : list (list (list A)))
    : Prop :=
  Forall (fun r => length r = cols /\ Forall (fun x => length x = depth) r) a.

(** A token: a non-empty string without whitespace. *)
Definition is_token (w : string) : Prop :=
  w <> EmptyString /\ Forall (fun c => Py.isspace c = false) (Py.chars w).

(** [" ".join(tokens)]. *)
Fixpoint join_space (tokens : list string) : string :=
  match tokens with
  | [] => EmptyString
  | [w] => w
  | w :: rest => String.append w (String " "%char (join_space rest))
  end.

(** A line as [readline] returns it. *)
Definition line (s : string) : string := String.append s Py.nl.

(** A small vocabulary and shared-embedding index for the concrete runs;
    [PAD_ID] is 0 and [UNK_ID] is 1 there. *)
Definition demo_word2id : gmap string Z :=
  list_to_map [("<pad>", 0); ("<unk>", 1); ("the", 5); ("cat", 6); ("a", 7)].

Definition demo_mcids : gmap Z Z := list_to_map [(5, 9)].

Section Batcher.

(** The reserved ids [PAD_ID] and [UNK_ID], imported from the [vocab]
    module; its source is not part of this development. *)
Variables PAD_ID UNK_ID : Z.

Variable word2id : gmap string Z.
Variable mcids_dict : gmap Z Z.
Variables batch_size context_len question_len word_len num_feats : nat.
Variable discard_long : bool.

(** [word2id.get(w, UNK_ID)]. *)
Definition word_id (w : string) : Z := default UNK_ID (word2id !! w).

Definition sentence_to_token_ids (sentence : string) : list string * list Z :=
  let tokens := split_by_whitespace sentence in
  let ids := map word_id tokens in
  (tokens, ids).

(** The common body of [padded], [paddedBool] and [padded2]: every row is
    extended on the right with [fill] up to [maxlen]. *)
Definition pad_rows {A : Type} (fill : A) (token_batch : list (list A))
    (batch_pad : nat) : result (list (list A)) :=
  do maxlen <- (if (batch_pad =? 0)%nat then Py.max (map length token_batch)
                else Ok batch_pad);
  Ok (map (fun token_list =>
             token_list ++ repeat fill (maxlen - length token_list))
          token_batch).

Definition padded (token_batch : list (list Z)) (batch_pad : nat) :=
  pad_rows PAD_ID token_batch batch_pad.

Definition paddedBool (token_batch : list (list bool)) (batch_pad : nat) :=
  pad_rows false token_batch batch_pad.

(** [padded2]: the filler is [num_feats] copies of [PAD_ID], a list when
    [islist] and a tuple otherwise; [pad] is [PAD_ID] in the row's type. *)
Definition padded2 {A : Type} (pad : A) (token_batch : list (list (list A)))
    (nfeats : nat) (batch_pad : nat) :=
  pad_rows (repeat pad nfeats) token_batch batch_pad.

(** *** Feature extraction (the first half of the loop body) *)

(** The character ids of one token, capped at [word_len]. *)
Definition token_char_ids (tok : string) : list Z :=
  Py.take word_len
    (map (fun char => match char2id !! char with
                      | Some i => i
                      | None => UNK_ID
                      end) (Py.lower tok)).

(** [char_ids] and [charQ_ids] as the loop body leaves them. *)
Definition char_ids_of (tokens : list string) : result (list (list Z)) :=
  padded (map token_char_ids tokens) word_len.

Definition common_mask_of (ids : list Z) : list bool :=
  map (fun x => bool_decide (is_Some (mcids_dict !! x))) ids.

Definition common_emb_indices_of (ids : list Z) : list Z :=
  map (fun x => default 0 (mcids_dict !! x)) ids.

Definition exact_match (qn_tokens : list string) (context_token : string) : Z :=
  Py.int_of_bool
    (Py.sum_bool (map (fun q => String.eqb context_token q) qn_tokens) =? 1).

Definition match_orig_of (context_tokens qn_tokens : list string) : list Z :=
  map (exact_match qn_tokens) context_tokens.

Definition tf_of (context_tokens : list string) : result (list float) :=
  let fdist := FreqDist context_tokens in
  do m <- Py.max (values fdist);
  let max_count := Py.float_of_nat m in
  Ok (map (fun w => (a + (1 - a) * Py.float_of_nat (fdist_get fdist w) / max_count)%float)
          context_tokens).

(** The transposition of [(tf, match_orig)]: one (tf, match) tuple per
    context token. *)
Definition zip_feats (tf : list float) (match_orig : list Z) : list (list pynum) :=
  map (fun p => [PyFloat p.1; PyInt p.2]) (combine tf match_orig).

(** *** The length policy (the second half of the loop body) *)

Definition truncate_question (e : example) : example :=
  Example (ex_context_ids e) (ex_context_tokens e)
    (Py.take question_len (ex_qn_ids e)) (ex_qn_tokens e)
    (ex_ans_span e) (ex_ans_tokens e) (ex_feats e) (ex_char_ids e)
    (Py.take question_len (ex_commonQ_mask e))
    (Py.take question_len (ex_commonQ_emb_indices e))
    (Py.take question_len (ex_charQ_ids e))
    (ex_commonC_mask e) (ex_commonC_emb_indices e).

Definition truncate_context (e : example) : example :=
  Example (Py.take context_len (ex_context_ids e)) (ex_context_tokens e)
    (ex_qn_ids e) (ex_qn_tokens e)
    (ex_ans_span e) (ex_ans_tokens e)
    (Py.take context_len (ex_feats e))
    (Py.take context_len (ex_char_ids e))
    (ex_commonQ_mask e) (ex_commonQ_emb_indices e) (ex_charQ_ids e)
    (Py.take context_len (ex_commonC_mask e))
    (Py.take context_len (ex_commonC_emb_indices e)).

(** "discard or truncate too-long questions", then contexts. *)
Definition length_policy (e : example) : outcome :=
  let after_question :=
    if (question_len <? length (ex_qn_ids e))%nat then
      if discard_long then Skipped else Kept (truncate_question e)
    else Kept e in
  match after_question with
  | Skipped => Skipped
  | Kept e1 =>
      if (context_len <? length (ex_context_ids e1))%nat then
        if discard_long then Skipped else Kept (truncate_context e1)
      else Kept e1
  end.

(** The fields computed from a line-triple before the span is looked at;
    [ans_tokens] is not set yet. *)
Definition extract (context_line qn_line ans_line : string) : result example :=
  let '(context_tokens, context_ids) := sentence_to_token_ids context_line in
  let '(qn_tokens, qn_ids) := sentence_to_token_ids qn_line in
  do ans_span <- intstr_to_intlist ans_line;
  do char_ids <- char_ids_of context_tokens;
  do charQ_ids <- char_ids_of qn_tokens;
  let commonQ_mask := common_mask_of qn_ids in
  let commonQ_emb_indices := common_emb_indices_of qn_ids in
  let commonC_mask := common_mask_of context_ids in
  let commonC_emb_indices := common_emb_indices_of context_ids in
  let match_orig := match_orig_of context_tokens qn_tokens in
  do tf <- tf_of context_tokens;
  let feats := zip_feats tf match_orig in
  Ok (Example context_ids context_tokens qn_ids qn_tokens ans_span []
        feats char_ids commonQ_mask commonQ_emb_indices charQ_ids
        commonC_mask commonC_emb_indices).

Definition set_ans_tokens (e : example) (ans_tokens : list string) : example :=
  Example (ex_context_ids e) (ex_context_tokens e) (ex_qn_ids e)
    (ex_qn_tokens e) (ex_ans_span e) ans_tokens (ex_feats e) (ex_char_ids e)
    (ex_commonQ_mask e) (ex_commonQ_emb_indices e) (ex_charQ_ids e)
    (ex_commonC_mask e) (ex_commonC_emb_indices e).

(** The loop body on one line-triple, apart from reading the next lines. *)
Definition body (context_line qn_line ans_line : string) : result outcome :=
  do e <- extract context_line qn_line ans_line;
  match ex_ans_span e with
  | [start; end_] =>
      if end_ <? start then Ok Skipped
      else
        let ans_tokens := Py.slice start (end_ + 1) (ex_context_tokens e) in
        Ok (length_policy (set_ans_tokens e ans_tokens))
  | _ => Raise AssertionError
  end.

(** *** Filling the pool *)

(** The [while] loop of [refill_batches], entered with the lines just
    read.  Each pass reads the next line of every file before it decides
    what to do with the current triple; when the context file has no line
    left the next test of the loop fails. *)
Fixpoint read_loop (context_line qn_line ans_line : string)
    (context_file qn_file ans_file : file) (examples : list example)
    {struct context_file} : result (list example * files) :=
  if Py.truthy context_line && Py.truthy qn_line && Py.truthy ans_line then
    do o <- body context_line qn_line ans_line;
    let '(qn_line', qn_file') := readline qn_file in
    let '(ans_line', ans_file') := readline ans_file in
    let again (examples : list example) :=
      match context_file with
      | [] => Ok (examples, Files [] qn_file' ans_file')
      | l :: context_file' =>
          read_loop (String.append l Py.nl) qn_line' ans_line'
            context_file' qn_file' ans_file' examples
      end in
    match o with
    | Skipped => again examples
    | Kept e =>
        let examples := examples ++ [e] in
        if (length examples =? batch_size * 160)%nat
        then Ok (examples, Files (readline context_file).2 qn_file' ans_file')
        else again examples
    end
  else Ok (examples, Files context_file qn_file ans_file).

(** The next pass of the loop: the following line of each file is read
    and the loop is entered again with the pool [examples]. *)
Definition next_pass (context_file qn_file ans_file : file)
    (examples : list example) : result (list example * files) :=
  let '(context_line, context_file') := readline context_file in
  let '(qn_line, qn_file') := readline qn_file in
  let '(ans_line, ans_file') := readline ans_file in
  read_loop context_line qn_line ans_line
    context_file' qn_file' ans_file' examples.

Definition refill_batches (batches : list raw_batch) (fs : files) (g : rng)
    : result (list raw_batch * files * rng) :=
  let '(context_line, context_file) := readline (context_file fs) in
  let '(qn_line, qn_file) := readline (qn_file fs) in
  let '(ans_line, ans_file) := readline (ans_file fs) in
  do (examples, fs') <-
    read_loop context_line qn_line ans_line context_file qn_file ans_file [];
  let examples := sorted (fun e => length (ex_qn_ids e)) examples in
  do starts <- xrange (length examples) batch_size;
  let batches :=
    batches ++
    map (fun batch_start => zip_star (take batch_size (drop batch_start examples)))
        starts in
  let '(batches, g') := shuffle batches g in
  Ok (batches, fs', g').

(** *** Padding and packaging *)

(** [(ids != PAD_ID).astype(np.int32)]. *)
Definition mask_of (x : Z) : Z := Py.int_of_bool (negb (x =? PAD_ID)).

(** One turn of the loop of [get_batch_generator] after the refill: the
    pending batch is padded and packaged.  [np.array] keeps the nesting of
    the lists it is given: the rows of a batch made by [refill_batches] are
    no longer than the length they are padded to, so all get that length. *)
Definition materialize (b : raw_batch) : result Batch.t :=
  do qn_ids <- padded (qn_ids_batch b) question_len;
  do context_ids <- padded (context_ids_batch b) context_len;
  let qn_mask := map (map mask_of) qn_ids in
  let context_mask := map (map mask_of) context_ids in
  let ans_span := ans_span_batch b in
  do feats <- padded2 (PyInt PAD_ID) (feats_batch b) num_feats context_len;
  do char_ids <- padded2 PAD_ID (char_ids_batch b) word_len context_len;
  let char_mask := map (map (map mask_of)) char_ids in
  do charQ_ids <- padded2 PAD_ID (charQ_ids_batch b) word_len question_len;
  let charQ_mask := map (map (map mask_of)) charQ_ids in
  do commonQ_mask <- paddedBool (commonQ_mask_batch b) question_len;
  do commonQ_emb_indices <- padded (commonQ_emb_indices_batch b) question_len;
  do commonC_mask <- paddedBool (commonC_mask_batch b) context_len;
  do commonC_emb_indices <- padded (commonC_emb_indices_batch b) context_len;
  Ok (Batch.init context_ids context_mask (context_tokens_batch b)
        qn_ids qn_mask (qn_tokens_batch b) ans_span (ans_tokens_batch b)
        feats char_ids char_mask commonQ_mask commonQ_emb_indices
        charQ_ids charQ_mask commonC_mask commonC_emb_indices None).

(** One request for a batch: refill when nothing is pending, stop when
    nothing is pending after that, else pop the first pending batch. *)
Definition gen_next (st : gen_state) : result (option (Batch.t * gen_state)) :=
  do st1 <-
    (match g_batches st with
     | [] =>
         do (batches, fs, g) <- refill_batches [] (g_files st) (g_rng st);
         Ok (GenState fs batches g)
     | _ => Ok st
     end);
  match g_batches st1 with
  | [] => Ok None
  | b :: batches =>
      do batch <- materialize b;
      Ok (Some (batch, GenState (g_files st1) batches (g_rng st1)))
  end.

(** The batches obtained by asking the generator [n] times. *)
Fixpoint run (n : nat) (st : gen_state) : list Batch.t * ending :=
  match n with
  | O => ([], Suspended)
  | S n' =>
      match gen_next st with
      | Raise e => ([], Raised e)
      | Ok None => ([], Exhausted)
      | Ok (Some (batch, st')) =>
          let '(batches, r) := run n' st' in (batch :: batches, r)
      end
  end.

(** [get_batch_generator]: the files are opened, nothing is pending. *)
Definition get_batch_generator (context_path qn_path ans_path : file) (g : rng)
    : gen_state :=
  GenState (Files context_path qn_path ans_path) [] g.

(** The examples the loop body can produce. *)
Definition kept (e : example) : Prop :=
  exists context_line qn_line ans_line,
    body context_line qn_line ans_line = Ok (Kept e).

(** The sort key of [refill_batches]. *)
Definition qn_length (e : example) : nat := length (ex_qn_ids e).

(** What a slice of a sorted pool is: some kept examples, at most
    [batch_size] of them, in the order of their question lengths. *)
Definition good_chunk (chunk : list example) : Prop :=
  chunk <> []
  /\ (length chunk <= batch_size)%nat
  /\ Forall kept chunk
  /\ sorted_by qn_length chunk.

(** A pending batch made by [refill_batches]. *)
Definition pending (b : raw_batch) : Prop :=
  exists chunk, good_chunk chunk /\ b = zip_star chunk.

(** A batch as the generator yields it: a good chunk, materialized. *)
Definition yielded (batch : Batch.t) : Prop :=
  exists chunk, good_chunk chunk /\ materialize (zip_star chunk) = Ok batch.

(** The feature tuple of the context token [w]: its term frequency in the
    context [ctx] and its exact match against the question [qn]. *)
Definition token_feats (ctx qn : list string) (w : string) : list pynum :=
  [PyFloat (0.4 + 0.6 * Py.float_of_nat (freq ctx w)
                  / Py.float_of_nat (max_freq ctx))%float;
   PyInt (exact_match qn w)].

(** The character ids of a token as [char_ids] stores them: capped and
    padded to [word_len]. *)
Definition token_char_row (tok : string) : list Z :=
  pad_to PAD_ID word_len (token_char_ids tok).

(** The examples of the line-triples of three files, in the order of the
    lines: what the reading loop pools when nothing stops it. *)
Fixpoint kept_examples (triples : list (string * string * string))
    : result (list example) :=
  match triples with
  | [] => Ok []
  | (c, q, a) :: rest =>
      do o <- body (line c) (line q) (line a);
      do es <- kept_examples rest;
      Ok (match o with Skipped => es | Kept e => e :: es end)
  end.

(** ** Properties *)

(** *** Python built-ins *)

Lemma sum_bool_from (l : list bool) (acc : Z) :
  fold_left (fun acc (b : bool) => acc + (if b then 1 else 0)) l acc
  = acc + Z.of_nat (count_occ bool_dec l true).
Proof.
  revert acc; induction l as [|b l IH]; intros acc; simpl.
  - lia.
  - rewrite IH. destruct b; simpl; [destruct (bool_dec true true)|destruct (bool_dec false true)];
      try congruence; simpl; lia.
Qed.

Lemma count_occ_eqb (Q : list string) (t : string) :
  count_occ bool_dec (map (fun q => String.eqb t q) Q) true
  = count_occ string_dec Q t.
Proof.
  induction Q as [|q Q IH]; [done|].
  cbn [map count_occ].
  destruct (String.eqb_spec t q) as [->|Hne];
    destruct (bool_dec _ true); destruct (string_dec q _);
    subst; congruence.
Qed.

Lemma sum_bool_eqb (Q : list string) (t : string) :
  Py.sum_bool (map (fun q => String.eqb t q) Q)
  = Z.of_nat (count_occ string_dec Q t).
Proof.
  unfold Py.sum_bool. rewrite sum_bool_from, count_occ_eqb. lia.
Qed.

(** C4.  The exact-match feature of a context token [t] against the
    question tokens [Q] is 1 exactly when [t] occurs once in [Q]; it is 0
    when [t] occurs twice or more, and 0 when [t] does not occur. *)
Theorem exact_match_iff_count_one (Q : list string) (t : string) :
  (exact_match Q t = 1 <-> count_occ string_dec Q t = 1%nat)
  /\ ((2 <= count_occ string_dec Q t)%nat -> exact_match Q t = 0)
  /\ (count_occ string_dec Q t = 0%nat -> exact_match Q t = 0).
Proof.
  unfold exact_match. rewrite sum_bool_eqb.
  destruct (Z.eqb_spec (Z.of_nat (count_occ string_dec Q t)) 1) as [He|Hne];
    simpl; repeat split; intros; try lia; try done.
Qed.

(** *** Term frequency *)

Lemma FreqDist_from (l : list string) (m : gmap string nat) (w : string) :
  fold_left (fun fdist w => <[w := S (default 0%nat (fdist !! w))]> fdist) l m !! w
  = match count_occ string_dec l w with
    | O => m !! w
    | S _ => Some (default 0 (m !! w) + count_occ string_dec l w)%nat
    end.
Proof.
  revert m; induction l as [|x l IH]; intros m; [done|].
  cbn [fold_left count_occ]. rewrite IH.
  destruct (string_dec x w) as [->|Hne].
  - rewrite lookup_insert_eq. cbn [default].
    destruct (count_occ string_dec l w); unfold id; f_equal; lia.
  - by rewrite lookup_insert_ne.
Qed.

Lemma FreqDist_lookup (l : list string) (w : string) :
  FreqDist l !! w
  = if decide (freq l w = 0%nat) then None else Some (freq l w).
Proof.
  unfold FreqDist, freq. rewrite FreqDist_from, lookup_empty.
  destruct (count_occ string_dec l w); by case_decide.
Qed.

Lemma fdist_get_freq (l : list string) (w : string) :
  fdist_get (FreqDist l) w = freq l w.
Proof.
  unfold fdist_get. rewrite FreqDist_lookup. case_decide; simpl; lia.
Qed.

Lemma freq_pos (l : list string) (w : string) :
  (0 < freq l w)%nat <-> In w l.
Proof. unfold freq. symmetry. apply count_occ_In. Qed.

Lemma elem_of_values (m : gmap string nat) (c : nat) :
  c ∈ values m <-> exists w, m !! w = Some c.
Proof.
  unfold values. rewrite list_elem_of_fmap. split.
  - intros [[w c'] [-> Hin]]. exists w. by apply elem_of_map_to_list.
  - intros [w Hw]. exists (w, c). split; [done|]. by apply elem_of_map_to_list.
Qed.

Lemma fold_left_max (l : list nat) (acc : nat) :
  fold_left Nat.max l acc = Nat.max acc (list_max l).
Proof.
  revert acc; induction l as [|x l IH]; intros acc; simpl; [lia|].
  rewrite IH. lia.
Qed.

Lemma Py_max_list_max (l : list nat) :
  l <> [] -> Py.max l = Ok (list_max l).
Proof.
  destruct l as [|x l]; [done|]. intros _. simpl. f_equal. apply fold_left_max.
Qed.

Lemma Py_max_nil_iff (l : list nat) : Py.max l = Raise ValueError <-> l = [].
Proof. destruct l; simpl; split; intros; congruence. Qed.

Lemma values_FreqDist_nil (l : list string) :
  values (FreqDist l) = [] <-> l = [].
Proof.
  split; [|by intros ->].
  destruct l as [|w l]; [done|]. intros Hnil.
  assert (Hin : freq (w :: l) w ∈ values (FreqDist (w :: l))).
  { apply elem_of_values. exists w. rewrite FreqDist_lookup.
    case_decide as H0; [|done].
    pose proof (proj2 (freq_pos (w :: l) w) (in_eq _ _)). lia. }
  rewrite Hnil in Hin. by apply elem_of_nil in Hin.
Qed.

Lemma list_max_values_FreqDist (l : list string) :
  list_max (values (FreqDist l)) = max_freq l.
Proof.
  unfold max_freq. apply Nat.le_antisymm; apply list_max_le, List.Forall_forall.
  - intros c Hc. apply (proj2 (list_elem_of_In _ _)), elem_of_values in Hc.
    destruct Hc as [w Hw].
    rewrite FreqDist_lookup in Hw. case_decide as H0; [done|].
    injection Hw as <-.
    assert (Hin : In w l) by (apply freq_pos; lia).
    pose proof (proj1 (list_max_le (map (freq l) l) _) (Nat.le_refl _)) as Hall.
    rewrite List.Forall_forall in Hall. apply Hall, in_map, Hin.
  - intros c [w [<- Hin]]%in_map_iff.
    pose proof (proj1 (list_max_le (values (FreqDist l)) _) (Nat.le_refl _)) as Hall.
    rewrite List.Forall_forall in Hall. apply Hall, list_elem_of_In, elem_of_values.
    exists w. rewrite FreqDist_lookup. case_decide as H0; [|done].
    apply freq_pos in Hin. lia.
Qed.

(** [tf_of] fails exactly on the empty token list. *)
Lemma tf_of_spec (context_tokens : list string) :
  tf_of context_tokens
  = match context_tokens with
    | [] => Raise ValueError
    | _ =>
        Ok (map (fun w =>
                   (0.4 + 0.6 * Py.float_of_nat (freq context_tokens w)
                          / Py.float_of_nat (max_freq context_tokens))%float)
                context_tokens)
    end.
Proof.
  destruct context_tokens as [|w0 l]; [done|].
  unfold tf_of. set (ctx := w0 :: l).
  rewrite Py_max_list_max by (rewrite values_FreqDist_nil; done).
  cbn [rbind]. rewrite list_max_values_FreqDist. f_equal.
  apply map_ext. intros w. by rewrite fdist_get_freq.
Qed.

(** C5.  For a non-empty context the term frequency of every token [w]
    is [0.4 + 0.6 * freq(w) / max_freq] in double arithmetic, [freq(w)]
    being the number of occurrences of [w] in the context and [max_freq]
    the largest number of occurrences of a context token. *)
Theorem tf_formula (context_tokens : list string) :
  context_tokens <> [] ->
  tf_of context_tokens
  = Ok (map (fun w =>
               (0.4 + 0.6 * Py.float_of_nat (freq context_tokens w)
                      / Py.float_of_nat (max_freq context_tokens))%float)
            context_tokens).
Proof.
  intros Hne. rewrite tf_of_spec. by destruct context_tokens.
Qed.

(** *** Padding *)

Lemma pad_rows_inv {A : Type} (fill : A) (token_batch : list (list A))
    (batch_pad : nat) (rows : list (list A)) :
  pad_rows fill token_batch batch_pad = Ok rows ->
  let maxlen := if (batch_pad =? 0)%nat
                then list_max (map length token_batch) else batch_pad in
  rows = map (fun token_list =>
                token_list ++ repeat fill (maxlen - length token_list))
             token_batch
  /\ (batch_pad = 0%nat -> token_batch <> []).
Proof.
  unfold pad_rows. destruct (Nat.eqb_spec batch_pad 0) as [->|Hne].
  - destruct token_batch as [|r0 rs]; [discriminate|].
    rewrite Py_max_list_max by done. cbn [rbind]. intros [= <-]. done.
  - cbn [rbind]. intros [= <-]. done.
Qed.

Lemma pad_rows_ok {A : Type} (fill : A) (token_batch : list (list A))
    (batch_pad : nat) :
  batch_pad <> 0%nat \/ token_batch <> [] ->
  exists rows, pad_rows fill token_batch batch_pad = Ok rows.
Proof.
  intros H. unfold pad_rows. destruct (Nat.eqb_spec batch_pad 0) as [->|Hne].
  - destruct H as [H|H]; [done|]. rewrite Py_max_list_max; [|by destruct token_batch].
    by eexists.
  - by eexists.
Qed.

Lemma pad_rows_nil {A : Type} (fill : A) :
  pad_rows fill [] 0 = Raise ValueError.
Proof. reflexivity. Qed.

Lemma pad_rows_length {A : Type} (fill : A) (token_batch : list (list A))
    (batch_pad : nat) (rows : list (list A)) :
  pad_rows fill token_batch batch_pad = Ok rows ->
  length rows = length token_batch.
Proof.
  intros H. apply pad_rows_inv in H as [-> _]. apply length_map.
Qed.

(** Rows no longer than a positive-or-zero target all get its length. *)
Lemma pad_rows_width {A : Type} (fill : A) (token_batch : list (list A))
    (batch_pad : nat) (rows : list (list A)) :
  pad_rows fill token_batch batch_pad = Ok rows ->
  Forall (fun r => (length r <= batch_pad)%nat) token_batch ->
  rows = map (fun token_list =>
                token_list ++ repeat fill (batch_pad - length token_list))
             token_batch
  /\ Forall (fun r => length r = batch_pad) rows.
Proof.
  intros H Hle. apply pad_rows_inv in H as [-> Hne]. cbv zeta.
  assert (Hmax : (if (batch_pad =? 0)%nat
                  then list_max (map length token_batch) else batch_pad)
                 = batch_pad).
  { destruct (Nat.eqb_spec batch_pad 0) as [->|]; [|done].
    apply Nat.le_antisymm; [|lia]. apply list_max_le.
    apply List.Forall_map. done. }
  rewrite Hmax. split; [done|].
  apply List.Forall_map. eapply Forall_impl; [exact Hle|].
  intros r Hr. cbv beta in *. rewrite length_app, repeat_length. lia.
Qed.

(** *** Character ids *)

Lemma length_lower (tok : string) :
  length (Py.lower tok) = String.length tok.
Proof.
  unfold Py.lower, Py.chars. rewrite length_map.
  induction tok as [|c tok IH]; simpl; congruence.
Qed.

Lemma length_token_char_ids (tok : string) :
  length (token_char_ids tok) = Nat.min (String.length tok) word_len.
Proof.
  unfold token_char_ids, Py.take.
  rewrite length_firstn, length_map, length_lower. lia.
Qed.

Lemma char_ids_of_spec (tokens : list string) :
  char_ids_of tokens
  = if decide (word_len = 0%nat /\ tokens = []) then Raise ValueError
    else Ok (map (fun tok =>
                    token_char_ids tok
                    ++ repeat PAD_ID (word_len - length (token_char_ids tok)))
                 tokens).
Proof.
  unfold char_ids_of, padded.
  case_decide as Hd.
  - destruct Hd as [-> ->]. reflexivity.
  - destruct (pad_rows_ok PAD_ID (map token_char_ids tokens) word_len) as [rows Hrows].
    { destruct (decide (word_len = 0%nat)); [right|left; done].
      destruct tokens; [tauto|done]. }
    rewrite Hrows. f_equal.
    apply pad_rows_width in Hrows as [-> _].
    + by rewrite map_map.
    + apply List.Forall_map, List.Forall_forall. intros tok _.
      rewrite length_token_char_ids. lia.
Qed.

Lemma char_ids_of_rows (tokens : list string) (rows : list (list Z)) :
  char_ids_of tokens = Ok rows ->
  length rows = length tokens /\ Forall (fun r => length r = word_len) rows.
Proof.
  rewrite char_ids_of_spec. case_decide; [discriminate|]. intros [= <-].
  rewrite length_map. split; [done|].
  apply List.Forall_map, List.Forall_forall. intros tok _.
  rewrite length_app, repeat_length, length_token_char_ids. lia.
Qed.

(** *** The materializer *)

Lemma rbind_Ok {A B : Type} (r : result A) (k : A -> result B) (b : B) :
  rbind r k = Ok b -> exists x, r = Ok x /\ k x = Ok b.
Proof. destruct r as [x|e]; simpl; [eauto|discriminate]. Qed.

Ltac inv_bind H :=
  let x := fresh "x" in
  let Hx := fresh "H" x in
  apply rbind_Ok in H as (x & Hx & H).

Lemma materialize_inv (b : raw_batch) (batch : Batch.t) :
  materialize b = Ok batch ->
  exists qn_ids context_ids feats char_ids charQ_ids
         commonQ_mask commonQ_emb_indices commonC_mask commonC_emb_indices,
    padded (qn_ids_batch b) question_len = Ok qn_ids
    /\ padded (context_ids_batch b) context_len = Ok context_ids
    /\ padded2 (PyInt PAD_ID) (feats_batch b) num_feats context_len = Ok feats
    /\ padded2 PAD_ID (char_ids_batch b) word_len context_len = Ok char_ids
    /\ padded2 PAD_ID (charQ_ids_batch b) word_len question_len = Ok charQ_ids
    /\ paddedBool (commonQ_mask_batch b) question_len = Ok commonQ_mask
    /\ padded (commonQ_emb_indices_batch b) question_len = Ok commonQ_emb_indices
    /\ paddedBool (commonC_mask_batch b) context_len = Ok commonC_mask
    /\ padded (commonC_emb_indices_batch b) context_len = Ok commonC_emb_indices
    /\ batch =
       Batch.init context_ids (map (map mask_of) context_ids)
         (context_tokens_batch b) qn_ids (map (map mask_of) qn_ids)
         (qn_tokens_batch b) (ans_span_batch b) (ans_tokens_batch b) feats
         char_ids (map (map (map mask_of)) char_ids)
         commonQ_mask commonQ_emb_indices
         charQ_ids (map (map (map mask_of)) charQ_ids)
         commonC_mask commonC_emb_indices None.
Proof.
  unfold materialize. intros H.
  inv_bind H. inv_bind H. inv_bind H. inv_bind H. inv_bind H.
  inv_bind H. inv_bind H. inv_bind H. inv_bind H.
  injection H as <-. repeat eexists; eassumption.
Qed.

(** C9, as the code has it.  The character ids of a token are the ids of
    its lower-cased characters ([UNK_ID] for a character outside the
    table) capped at [word_len], of length [min(len(token), word_len)],
    and [char_ids] already holds them padded on the right with [PAD_ID]
    to exactly [word_len] when the example is assembled (a [ValueError]
    when [word_len] is 0 and there is no token); the materializer only
    appends rows of [word_len] times [PAD_ID], up to [context_len] rows
    for [char_ids] and up to [question_len] rows for [charQ_ids]. *)
Theorem char_ids_padded_at_extraction (tokens : list string) :
  (forall tok,
      token_char_ids tok
      = firstn word_len
          (map (fun c => default UNK_ID (char2id !! c)) (Py.lower tok))
      /\ length (token_char_ids tok) = Nat.min (String.length tok) word_len)
  /\ char_ids_of tokens
     = (if decide (word_len = 0%nat /\ tokens = []) then Raise ValueError
        else Ok (map (fun tok =>
                        token_char_ids tok
                        ++ repeat PAD_ID (word_len - length (token_char_ids tok)))
                     tokens))
  /\ (forall rows, char_ids_of tokens = Ok rows ->
                   Forall (fun r => length r = word_len) rows)
  /\ (forall b batch, materialize b = Ok batch ->
        Batch.char_ids batch
        = map (fun rows =>
                 rows ++ repeat (repeat PAD_ID word_len)
                           ((if (context_len =? 0)%nat
                             then list_max (map length (char_ids_batch b))
                             else context_len) - length rows))
              (char_ids_batch b)
        /\ Batch.charQ_ids batch
           = map (fun rows =>
                    rows ++ repeat (repeat PAD_ID word_len)
                              ((if (question_len =? 0)%nat
                                then list_max (map length (charQ_ids_batch b))
                                else question_len) - length rows))
                 (charQ_ids_batch b)).
Proof.
  split; [|split; [|split]].
  - intros tok. split; [reflexivity|apply length_token_char_ids].
  - apply char_ids_of_spec.
  - intros rows H. by apply char_ids_of_rows in H as [_ H].
  - intros b batch H.
    apply materialize_inv in H
      as (qi & ci & fe & ch & chQ & qm & qe & cm & ce
          & _ & _ & _ & Hch & HchQ & _ & _ & _ & _ & ->).
    cbn [Batch.init Batch.char_ids Batch.charQ_ids].
    apply pad_rows_inv in Hch as [-> _].
    by apply pad_rows_inv in HchQ as [-> _].
Qed.

(** *** The loop body *)

Lemma extract_inv (context_line qn_line ans_line : string) (e0 : example) :
  extract context_line qn_line ans_line = Ok e0 ->
  let context_tokens := split_by_whitespace context_line in
  let qn_tokens := split_by_whitespace qn_line in
  let context_ids := (sentence_to_token_ids context_line).2 in
  let qn_ids := (sentence_to_token_ids qn_line).2 in
  exists ans_span char_ids charQ_ids tf,
    intstr_to_intlist ans_line = Ok ans_span
    /\ char_ids_of context_tokens = Ok char_ids
    /\ char_ids_of qn_tokens = Ok charQ_ids
    /\ tf_of context_tokens = Ok tf
    /\ e0 = Example context_ids context_tokens qn_ids qn_tokens ans_span []
              (zip_feats tf (match_orig_of context_tokens qn_tokens))
              char_ids (common_mask_of qn_ids) (common_emb_indices_of qn_ids)
              charQ_ids (common_mask_of context_ids)
              (common_emb_indices_of context_ids).
Proof.
  unfold extract, sentence_to_token_ids. cbv zeta. cbn [fst snd]. intros H.
  inv_bind H. inv_bind H. inv_bind H. inv_bind H.
  injection H as <-. eauto 10.
Qed.

Lemma length_tf_of (context_tokens : list string) (tf : list float) :
  tf_of context_tokens = Ok tf -> length tf = length context_tokens.
Proof.
  rewrite tf_of_spec. destruct context_tokens; [discriminate|].
  intros [= <-]. cbn [length]. f_equal. apply length_map.
Qed.

Lemma extract_aligned (context_line qn_line ans_line : string) (e0 : example) :
  extract context_line qn_line ans_line = Ok e0 ->
  ex_context_tokens e0 = split_by_whitespace context_line
  /\ ex_qn_tokens e0 = split_by_whitespace qn_line
  /\ intstr_to_intlist ans_line = Ok (ex_ans_span e0)
  /\ context_aligned (length (ex_context_tokens e0)) e0
  /\ question_aligned (length (ex_qn_tokens e0)) e0.
Proof.
  intros H. apply extract_inv in H
    as (ans_span & char_ids & charQ_ids & tf & Hspan & Hc & Hq & Htf & ->).
  apply char_ids_of_rows in Hc as [Hc _].
  apply char_ids_of_rows in Hq as [Hq _].
  apply length_tf_of in Htf.
  unfold context_aligned, question_aligned, sentence_to_token_ids,
    zip_feats, match_orig_of, common_mask_of, common_emb_indices_of.
  cbn [ex_context_tokens ex_qn_tokens ex_ans_span ex_context_ids ex_feats
       ex_char_ids ex_commonC_mask ex_commonC_emb_indices ex_qn_ids
       ex_commonQ_mask ex_commonQ_emb_indices ex_charQ_ids fst snd].
  rewrite !length_map, length_combine, length_map, Htf.
  repeat split; try done; lia.
Qed.

(** [extract] succeeds unless the answer line does not parse, the context
    has no token, or [word_len] is 0 and the question has no token. *)
Lemma extract_ok (context_line qn_line ans_line : string) (ans_span : list Z) :
  intstr_to_intlist ans_line = Ok ans_span ->
  split_by_whitespace context_line <> [] ->
  word_len <> 0%nat \/ split_by_whitespace qn_line <> [] ->
  exists e0, extract context_line qn_line ans_line = Ok e0
             /\ ex_ans_span e0 = ans_span.
Proof.
  intros Hspan Hc Hq. unfold extract, sentence_to_token_ids. cbv zeta.
  rewrite Hspan. cbn [rbind].
  rewrite !char_ids_of_spec, tf_of_spec.
  destruct (split_by_whitespace context_line) as [|w ws] eqn:Ec; [done|].
  rewrite decide_False by (intros [_ ?]; done). cbn [rbind].
  rewrite decide_False by (intros [? ?]; destruct Hq; done). cbn [rbind].
  eexists. split; reflexivity.
Qed.

Lemma extract_empty_context (context_line qn_line ans_line : string) :
  split_by_whitespace context_line = [] ->
  exists e, extract context_line qn_line ans_line = Raise e.
Proof.
  intros Hc. unfold extract, sentence_to_token_ids. cbv zeta. rewrite Hc.
  destruct (intstr_to_intlist ans_line); cbn [rbind]; [|eauto].
  destruct (char_ids_of []); cbn [rbind]; [|eauto].
  destruct (char_ids_of _); cbn [rbind]; [|eauto].
  rewrite tf_of_spec. cbn [rbind]. eauto.
Qed.

Lemma length_policy_Kept (e1 e : example) :
  length_policy e1 = Kept e ->
  e = (if (context_len <? length (ex_context_ids e1))%nat
       then truncate_context else id)
        ((if (question_len <? length (ex_qn_ids e1))%nat
          then truncate_question else id) e1)
  /\ (discard_long = true ->
      (length (ex_qn_ids e1) <= question_len)%nat
      /\ (length (ex_context_ids e1) <= context_len)%nat).
Proof.
  unfold length_policy.
  destruct (Nat.ltb_spec question_len (length (ex_qn_ids e1))) as [Hq|Hq];
    destruct discard_long; try discriminate;
    cbn [truncate_question ex_context_ids];
    destruct (Nat.ltb_spec context_len (length (ex_context_ids e1))) as [Hc|Hc];
    try discriminate; intros [= <-]; (split; [reflexivity|]); intros; try done.
Qed.

Lemma length_policy_discard (e1 : example) :
  discard_long = true ->
  (question_len < length (ex_qn_ids e1))%nat
  \/ (context_len < length (ex_context_ids e1))%nat ->
  length_policy e1 = Skipped.
Proof.
  intros Hd H. unfold length_policy. rewrite Hd.
  destruct (Nat.ltb_spec question_len (length (ex_qn_ids e1))) as [Hq|Hq];
    [done|].
  destruct (Nat.ltb_spec context_len (length (ex_context_ids e1))) as [Hc|Hc];
    [done|lia].
Qed.

Lemma length_policy_truncate (e1 : example) :
  discard_long = false -> exists e, length_policy e1 = Kept e.
Proof.
  intros Hd. unfold length_policy. rewrite Hd.
  destruct (question_len <? length (ex_qn_ids e1))%nat;
    match goal with
    | |- context [(context_len <? ?n)%nat] =>
        destruct (context_len <? n)%nat; eauto
    end.
Qed.

Lemma length_take_min {A : Type} (n : nat) (l : list A) :
  length (Py.take n l) = Nat.min (length l) n.
Proof. unfold Py.take. rewrite length_firstn. lia. Qed.

Lemma length_policy_aligned (e1 e : example) (n m : nat) :
  length_policy e1 = Kept e ->
  context_aligned n e1 -> question_aligned m e1 ->
  context_aligned (Nat.min n context_len) e
  /\ question_aligned (Nat.min m question_len) e.
Proof.
  intros H (Hc1 & Hc2 & Hc3 & Hc4 & Hc5) (Hq1 & Hq2 & Hq3 & Hq4).
  apply length_policy_Kept in H as [-> _].
  unfold context_aligned, question_aligned.
  destruct (Nat.ltb_spec question_len (length (ex_qn_ids e1))) as [Hq|Hq];
    destruct (Nat.ltb_spec context_len (length (ex_context_ids e1))) as [Hc|Hc];
    cbn [id truncate_context truncate_question ex_context_ids ex_feats
         ex_char_ids ex_commonC_mask ex_commonC_emb_indices ex_qn_ids
         ex_commonQ_mask ex_commonQ_emb_indices ex_charQ_ids];
    rewrite ?length_take_min; repeat split; lia.
Qed.

Lemma length_policy_frame (e1 e : example) :
  length_policy e1 = Kept e ->
  ex_context_tokens e = ex_context_tokens e1
  /\ ex_qn_tokens e = ex_qn_tokens e1
  /\ ex_ans_span e = ex_ans_span e1
  /\ ex_ans_tokens e = ex_ans_tokens e1.
Proof.
  intros H. apply length_policy_Kept in H as [-> _].
  destruct (question_len <? length (ex_qn_ids e1))%nat;
    destruct (context_len <? length (ex_context_ids e1))%nat; done.
Qed.

Lemma body_unfold (context_line qn_line ans_line : string) (e0 : example) :
  extract context_line qn_line ans_line = Ok e0 ->
  body context_line qn_line ans_line
  = match ex_ans_span e0 with
    | [start; end_] =>
        if end_ <? start then Ok Skipped
        else Ok (length_policy
                   (set_ans_tokens e0
                      (Py.slice start (end_ + 1) (ex_context_tokens e0))))
    | _ => Raise AssertionError
    end.
Proof. intros H. unfold body. by rewrite H. Qed.

Lemma body_Kept (context_line qn_line ans_line : string) (e : example) :
  body context_line qn_line ans_line = Ok (Kept e) ->
  exists e0 start end_,
    extract context_line qn_line ans_line = Ok e0
    /\ ex_ans_span e0 = [start; end_]
    /\ start <= end_
    /\ length_policy
         (set_ans_tokens e0
            (Py.slice start (end_ + 1) (ex_context_tokens e0))) = Kept e.
Proof.
  intros H. unfold body in H. inv_bind H.
  destruct (ex_ans_span x) as [|start [|end_ [|? ?]]] eqn:Espan;
    try discriminate.
  destruct (Z.ltb_spec end_ start); [discriminate|].
  injection H as H. exists x, start, end_. done.
Qed.

Lemma body_raises_before_span (context_line qn_line ans_line : string) (e : exn) :
  extract context_line qn_line ans_line = Raise e ->
  body context_line qn_line ans_line = Raise e.
Proof. intros H. unfold body. by rewrite H. Qed.

(** *** One pass of the loop *)

Lemma read_loop_unfold (context_line qn_line ans_line : string)
    (context_file qn_file ans_file : file) (examples : list example) :
  read_loop context_line qn_line ans_line context_file qn_file ans_file examples
  = if Py.truthy context_line && Py.truthy qn_line && Py.truthy ans_line then
      do o <- body context_line qn_line ans_line;
      match o with
      | Skipped => next_pass context_file qn_file ans_file examples
      | Kept e =>
          if (length (examples ++ [e]) =? batch_size * 160)%nat
          then Ok (examples ++ [e],
                   Files (readline context_file).2 (readline qn_file).2
                     (readline ans_file).2)
          else next_pass context_file qn_file ans_file (examples ++ [e])
      end
    else Ok (examples, Files context_file qn_file ans_file).
Proof.
  unfold next_pass.
  destruct context_file as [|l context_file']; cbn [read_loop readline];
    destruct (Py.truthy context_line && Py.truthy qn_line && Py.truthy ans_line);
    try reflexivity;
    destruct (body context_line qn_line ans_line) as [[|e]|err];
    cbn [rbind]; try reflexivity;
    destruct (readline qn_file) as [ql' qf'];
    destruct (readline ans_file) as [al' af']; cbn [snd];
    try reflexivity;
    destruct (length (examples ++ [e]) =? batch_size * 160)%nat;
    try reflexivity.
Qed.

(** A triple the body skips leaves the pool as it was: the loop goes on
    with the following lines. *)
Lemma read_loop_skip (context_line qn_line ans_line : string)
    (context_file qn_file ans_file : file) (examples : list example) :
  Py.truthy context_line = true -> Py.truthy qn_line = true ->
  Py.truthy ans_line = true ->
  body context_line qn_line ans_line = Ok Skipped ->
  read_loop context_line qn_line ans_line context_file qn_file ans_file examples
  = next_pass context_file qn_file ans_file examples.
Proof.
  intros Hc Hq Ha Hb. rewrite read_loop_unfold, Hc, Hq, Ha, Hb. reflexivity.
Qed.

Lemma body_aligned
    (context_line qn_line ans_line : string) (e : example) :
  body context_line qn_line ans_line = Ok (Kept e) ->
  context_aligned (Nat.min (length (ex_context_tokens e)) context_len) e
  /\ question_aligned (Nat.min (length (ex_qn_tokens e)) question_len) e.
Proof.
  intros H. apply body_Kept in H as (e0 & start & end_ & He0 & _ & _ & Hp).
  apply extract_aligned in He0 as (_ & _ & _ & Hc & Hq).
  set (e1 := set_ans_tokens e0 _) in *.
  assert (Hc1 : context_aligned (length (ex_context_tokens e1)) e1) by exact Hc.
  assert (Hq1 : question_aligned (length (ex_qn_tokens e1)) e1) by exact Hq.
  destruct (length_policy_frame _ _ Hp) as (Et & Eq & _ & _).
  rewrite Et, Eq. exact (length_policy_aligned _ _ _ _ Hp Hc1 Hq1).
Qed.

(** With [discard_long] a kept example is not over-length. *)
Lemma body_fits (context_line qn_line ans_line : string) (e : example) :
  discard_long = true ->
  body context_line qn_line ans_line = Ok (Kept e) ->
  (length (ex_context_tokens e) <= context_len)%nat
  /\ (length (ex_qn_tokens e) <= question_len)%nat.
Proof.
  intros Hd H. apply body_Kept in H as (e0 & start & end_ & He0 & _ & _ & Hp).
  apply extract_aligned in He0 as (_ & _ & _ & [Hc _] & [Hq _]).
  destruct (length_policy_frame _ _ Hp) as (Et & Eq & _ & _).
  apply length_policy_Kept in Hp as [_ Hfit]. destruct (Hfit Hd) as [Hfq Hfc].
  cbn [set_ans_tokens ex_qn_ids ex_context_ids ex_context_tokens ex_qn_tokens]
    in *.
  rewrite Et, Eq. lia.
Qed.

(** C1, as the code has it.  In an assembled example the fields that run
    along the context ([context_ids], [feats], [char_ids], [commonC_mask],
    [commonC_emb_indices]) all have the length
    [min(len(context_tokens), context_len)] and those that run along the
    question ([qn_ids], [commonQ_mask], [commonQ_emb_indices],
    [charQ_ids]) the length [min(len(qn_tokens), question_len)]:
    truncation shortens them and leaves the token lists whole.  With
    [discard_long] no kept example is over-length, so the lengths are
    those of the token lists. *)
Theorem aligned_fields_share_capped_length
    (context_line qn_line ans_line : string) (e : example) :
  body context_line qn_line ans_line = Ok (Kept e) ->
  context_aligned (Nat.min (length (ex_context_tokens e)) context_len) e
  /\ question_aligned (Nat.min (length (ex_qn_tokens e)) question_len) e
  /\ (discard_long = true ->
      context_aligned (length (ex_context_tokens e)) e
      /\ question_aligned (length (ex_qn_tokens e)) e).
Proof.
  intros H. destruct (body_aligned _ _ _ _ H) as [Hc Hq].
  split; [exact Hc|]. split; [exact Hq|].
  intros Hd. destruct (body_fits _ _ _ _ Hd H) as [Hfc Hfq].
  rewrite Nat.min_l in Hc by exact Hfc. rewrite Nat.min_l in Hq by exact Hfq.
  by split.
Qed.

(** C3.  Take a triple from which the fields were extracted ([e0] holds
    them untruncated) and whose question or context is longer than
    [question_len] or [context_len].  With [discard_long] the body never
    keeps an example for it and the loop goes on with the pool unchanged,
    so nothing of it reaches a batch.  Without [discard_long] an example
    with a well-formed span is kept, and on each over-length side the
    ids, the shared-vocabulary mask and indices, the per-token character
    ids and (for the context) the features are the first [question_len]
    or [context_len] entries of the untruncated fields. *)
Theorem over_length_discarded_or_truncated
    (context_line qn_line ans_line : string)
    (context_file qn_file ans_file : file) (examples : list example)
    (e0 : example) :
  extract context_line qn_line ans_line = Ok e0 ->
  (question_len < length (ex_qn_ids e0))%nat
  \/ (context_len < length (ex_context_ids e0))%nat ->
  (discard_long = true ->
     (forall e, body context_line qn_line ans_line <> Ok (Kept e))
     /\ (Py.truthy context_line && Py.truthy qn_line && Py.truthy ans_line = true ->
         read_loop context_line qn_line ans_line
           context_file qn_file ans_file examples
         = (do _ <- body context_line qn_line ans_line;
            next_pass context_file qn_file ans_file examples)))
  /\ (discard_long = false ->
      (forall start end_,
          ex_ans_span e0 = [start; end_] -> start <= end_ ->
          exists e, body context_line qn_line ans_line = Ok (Kept e))
      /\ (forall e,
            body context_line qn_line ans_line = Ok (Kept e) ->
            ((question_len < length (ex_qn_ids e0))%nat ->
             ex_qn_ids e = firstn question_len (ex_qn_ids e0)
             /\ ex_commonQ_mask e = firstn question_len (ex_commonQ_mask e0)
             /\ ex_commonQ_emb_indices e
                = firstn question_len (ex_commonQ_emb_indices e0)
             /\ ex_charQ_ids e = firstn question_len (ex_charQ_ids e0)
             /\ question_aligned question_len e)
            /\ ((context_len < length (ex_context_ids e0))%nat ->
                ex_context_ids e = firstn context_len (ex_context_ids e0)
                /\ ex_feats e = firstn context_len (ex_feats e0)
                /\ ex_char_ids e = firstn context_len (ex_char_ids e0)
                /\ ex_commonC_mask e = firstn context_len (ex_commonC_mask e0)
                /\ ex_commonC_emb_indices e
                   = firstn context_len (ex_commonC_emb_indices e0)
                /\ context_aligned context_len e))).
Proof.
  intros He0 Hover. split.
  - intros Hd.
    assert (Hnot : forall e, body context_line qn_line ans_line <> Ok (Kept e)).
    { intros e Hb. rewrite (body_unfold _ _ _ _ He0) in Hb.
      destruct (ex_ans_span e0) as [|start [|end_ [|? ?]]]; try discriminate.
      destruct (end_ <? start); [discriminate|].
      rewrite length_policy_discard in Hb; [discriminate|done|done]. }
    split; [exact Hnot|].
    intros Ht. rewrite read_loop_unfold, Ht.
    destruct (body context_line qn_line ans_line) as [[|e]|err] eqn:Hb;
      [reflexivity| |reflexivity].
    by destruct (Hnot e).
  - intros Hd. split.
    + intros start end_ Hspan Hle. rewrite (body_unfold _ _ _ _ He0), Hspan.
      destruct (Z.ltb_spec end_ start); [lia|].
      destruct (length_policy_truncate
                  (set_ans_tokens e0
                     (Py.slice start (end_ + 1) (ex_context_tokens e0))) Hd)
        as [e He].
      exists e. by rewrite He.
    + intros e Hb.
      destruct (body_aligned _ _ _ _ Hb) as (Hc & Hq).
      apply body_Kept in Hb as (e0' & start & end_ & He0' & _ & _ & Hp).
      rewrite He0 in He0'. injection He0' as <-.
      apply extract_aligned in He0 as (_ & _ & _ & [Hc0 _] & [Hq0 _]).
      destruct (length_policy_frame _ _ Hp) as (Et & Eq & _ & _).
      cbn [set_ans_tokens ex_context_tokens ex_qn_tokens] in Et, Eq.
      rewrite Et, <- Hc0 in Hc. rewrite Eq, <- Hq0 in Hq.
      apply length_policy_Kept in Hp as [-> _].
      cbn [set_ans_tokens ex_qn_ids ex_context_ids] in *.
      split; intros Hlt.
      * rewrite (proj2 (Nat.ltb_lt _ _) Hlt) in Hq |- *.
        replace (Nat.min (length (ex_qn_ids e0)) question_len)
          with question_len in Hq by lia.
        split; [|split; [|split; [|split]]]; try exact Hq;
          by destruct (context_len <? length (ex_context_ids e0))%nat.
      * rewrite (proj2 (Nat.ltb_lt _ _) Hlt) in Hc |- *.
        replace (Nat.min (length (ex_context_ids e0)) context_len)
          with context_len in Hc by lia.
        split; [|split; [|split; [|split; [|split]]]]; try exact Hc;
          by destruct (question_len <? length (ex_qn_ids e0))%nat.
Qed.

Lemma body_ans_fields (context_line qn_line ans_line : string) (e : example) :
  body context_line qn_line ans_line = Ok (Kept e) ->
  exists start end_,
    intstr_to_intlist ans_line = Ok [start; end_]
    /\ start <= end_
    /\ ex_ans_span e = [start; end_]
    /\ ex_context_tokens e = split_by_whitespace context_line
    /\ ex_ans_tokens e
       = Py.slice start (end_ + 1) (split_by_whitespace context_line).
Proof.
  intros Hb. apply body_Kept in Hb as (e0 & start & end_ & He0 & Hspan & Hle & Hp).
  apply extract_aligned in He0 as (Et & _ & Hparse & _ & _).
  destruct (length_policy_frame _ _ Hp) as (Et' & _ & Es' & Ea').
  cbn [set_ans_tokens ex_context_tokens ex_ans_span ex_ans_tokens] in *.
  exists start, end_. rewrite Hparse, Es', Et', Ea', Hspan, Et. done.
Qed.

Lemma materialize_frame (b : raw_batch) (batch : Batch.t) :
  materialize b = Ok batch ->
  Batch.ans_span batch = ans_span_batch b
  /\ Batch.ans_tokens batch = ans_tokens_batch b
  /\ Batch.context_tokens batch = context_tokens_batch b
  /\ Batch.qn_tokens batch = qn_tokens_batch b.
Proof.
  intros H. apply materialize_inv in H
    as (qi & ci & fe & ch & chQ & qm & qe & cm & ce
        & _ & _ & _ & _ & _ & _ & _ & _ & _ & ->).
  done.
Qed.

(** C6, as the code has it.  A triple whose context has a token (and whose
    question has one when [word_len] is 0) and whose answer line parses
    as [start end] with [end < start] gives no example and no exception:
    the loop goes on with the following lines and the pool unchanged. *)
Theorem malformed_span_skipped (context_line qn_line ans_line : string)
    (context_file qn_file ans_file : file) (examples : list example)
    (start end_ : Z) :
  Py.truthy context_line = true -> Py.truthy qn_line = true ->
  Py.truthy ans_line = true ->
  split_by_whitespace context_line <> [] ->
  word_len <> 0%nat \/ split_by_whitespace qn_line <> [] ->
  intstr_to_intlist ans_line = Ok [start; end_] ->
  end_ < start ->
  body context_line qn_line ans_line = Ok Skipped
  /\ read_loop context_line qn_line ans_line
       context_file qn_file ans_file examples
     = next_pass context_file qn_file ans_file examples.
Proof.
  intros Hc Hq Ha Hctx Hqn Hparse Hlt.
  destruct (extract_ok _ _ _ _ Hparse Hctx Hqn) as (e0 & He0 & Hspan).
  assert (Hb : body context_line qn_line ans_line = Ok Skipped).
  { rewrite (body_unfold _ _ _ _ He0), Hspan.
    by rewrite (proj2 (Z.ltb_lt _ _) Hlt). }
  split; [exact Hb|]. by apply read_loop_skip.
Qed.

(** *** Sorting, slicing and shuffling *)

Lemma insert_by_Permutation {A : Type} (key : A -> nat) (x : A) (l : list A) :
  Permutation (x :: l) (insert_by key x l).
Proof.
  induction l as [|y l IH]; simpl; [done|].
  destruct (key x <=? key y)%nat; [done|].
  rewrite perm_swap. by apply perm_skip.
Qed.

Lemma sorted_Permutation {A : Type} (key : A -> nat) (l : list A) :
  Permutation l (sorted key l).
Proof.
  induction l as [|x l IH]; simpl; [done|].
  rewrite <- insert_by_Permutation. by apply perm_skip.
Qed.

Lemma insert_by_sorted {A : Type} (key : A -> nat) (x : A) (l : list A) :
  sorted_by key l -> sorted_by key (insert_by key x l).
Proof.
  unfold sorted_by. induction 1 as [|y l Hs IH Hy]; simpl.
  - repeat constructor.
  - destruct (Nat.leb_spec (key x) (key y)) as [Hle|Hgt].
    + constructor; [by constructor|].
      constructor; [done|]. eapply Forall_impl; [exact Hy|].
      intros z Hz. cbv beta in *. lia.
    + constructor; [done|].
      rewrite <- insert_by_Permutation. constructor; [lia|done].
Qed.

Lemma sorted_sorted {A : Type} (key : A -> nat) (l : list A) :
  sorted_by key (sorted key l).
Proof.
  induction l as [|x l IH]; simpl; [constructor|]. by apply insert_by_sorted.
Qed.



Lemma sorted_by_take_drop {A : Type} (key : A -> nat) (n m : nat) (l : list A) :
  sorted_by key l -> sorted_by key (take n (drop m l)).
Proof.
  unfold sorted_by. intros H.
  rewrite <- (take_drop m l) in H. apply StronglySorted_app_1_r in H.
  rewrite <- (take_drop n (drop m l)) in H. by apply StronglySorted_app_1_l in H.
Qed.

Lemma concat_slices_take {A : Type} (size q : nat) (l : list A) :
  concat (map (fun k => take size (drop (k * size) l)) (seq 0 q))
  = take (q * size) l.
Proof.
  induction q as [|q IH]; [done|].
  rewrite seq_S, map_app, concat_app, IH. cbn [map concat plus].
  rewrite app_nil_r, take_take_drop. f_equal. lia.
Qed.

Lemma slices_count {A : Type} (size : nat) (l : list A) :
  size <> 0%nat ->
  let q := ((length l + size - 1) / size)%nat in
  (length l <= q * size)%nat /\ (q = 0%nat \/ ((q - 1) * size < length l)%nat).
Proof.
  intros Hsize q.
  pose proof (Nat.div_mod_eq (length l + size - 1) size) as Hdiv.
  pose proof (Nat.mod_upper_bound (length l + size - 1) size Hsize) as Hmod.
  fold q in Hdiv. split; [nia|].
  destruct q as [|q']; [by left|right]. nia.
Qed.

Lemma concat_slices {A : Type} (size : nat) (l : list A) :
  size <> 0%nat -> concat (slices size l) = l.
Proof.
  intros Hsize. unfold slices. rewrite concat_slices_take.
  apply take_ge. by destruct (slices_count size l Hsize) as [H _].
Qed.

Lemma length_slices {A : Type} (size : nat) (l : list A) :
  length (slices size l) = ((length l + size - 1) / size)%nat.
Proof. unfold slices. by rewrite length_map, length_seq. Qed.

Lemma lookup_slices {A : Type} (size i : nat) (l c : list A) :
  slices size l !! i = Some c ->
  c = take size (drop (i * size) l) /\ (i < length (slices size l))%nat.
Proof.
  intros H. pose proof (lookup_lt_Some _ _ _ H) as Hlt. split; [|done].
  unfold slices in H. rewrite length_slices in Hlt.
  change (map ?f ?l) with (f <$> l) in H.
  rewrite list_lookup_fmap, lookup_seq_lt in H by done.
  by injection H as <-.
Qed.

(** Every slice holds between 1 and [size] elements, and exactly [size]
    unless it is the last one. *)
Lemma slices_sizes {A : Type} (size i : nat) (l c : list A) :
  size <> 0%nat ->
  slices size l !! i = Some c ->
  (0 < length c <= size)%nat
  /\ (S i < length (slices size l) -> length c = size)%nat.
Proof.
  intros Hsize H. apply lookup_slices in H as [-> Hlt].
  rewrite length_slices in *.
  destruct (slices_count size l Hsize) as [Hq1 Hq2]. cbv zeta in *.
  rewrite length_take, length_drop.
  destruct Hq2 as [Hq2|Hq2]; [lia|]. split; [nia|]. intros Hi. nia.
Qed.

Lemma swap_Permutation {A : Type} (x : list A) (i j : nat) :
  Permutation (swap x i j) x.
Proof.
  unfold swap. destruct (x !! i) as [xi|] eqn:Hi; [|done].
  destruct (x !! j) as [xj|] eqn:Hj; [|done].
  by apply Permutation_insert_swap.
Qed.

Lemma shuffle_from_Permutation {A : Type} (i : nat) (x : list A) (g : rng) :
  Permutation (shuffle_from i x g).1 x.
Proof.
  revert x g; induction i as [|i IH]; intros x g; [done|].
  cbn [shuffle_from]. destruct (randbelow (S i + 1) g) as [j g'].
  rewrite IH. apply swap_Permutation.
Qed.

Lemma shuffle_Permutation {A : Type} (x : list A) (g : rng) :
  Permutation (shuffle x g).1 x.
Proof. apply shuffle_from_Permutation. Qed.

Lemma count_short_Permutation {A : Type} (size : nat) (ls ls' : list (list A)) :
  Permutation ls ls' -> count_short size ls = count_short size ls'.
Proof. induction 1; simpl; lia. Qed.

Lemma count_short_app {A : Type} (size : nat) (ls ls' : list (list A)) :
  count_short size (ls ++ ls') = (count_short size ls + count_short size ls')%nat.
Proof. induction ls as [|l ls IH]; simpl; lia. Qed.

Lemma count_short_full {A : Type} (size : nat) (ls : list (list A)) :
  Forall (fun l => length l = size) ls -> count_short size ls = 0%nat.
Proof.
  induction 1 as [|l ls Hl _ IH]; simpl; [done|].
  rewrite IH, Hl, Nat.ltb_irrefl. done.
Qed.

(** Among the slices only the last one can be short. *)
Lemma count_short_slices {A : Type} (size : nat) (l : list A) :
  size <> 0%nat -> (count_short size (slices size l) <= 1)%nat.
Proof.
  intros Hsize.
  assert (Hgen : forall ls : list (list A),
             (forall i c, ls !! i = Some c -> S i < length ls -> length c = size)%nat ->
             (count_short size ls <= 1)%nat).
  { induction ls as [|c ls IH]; intros Hall; simpl; [lia|].
    destruct ls as [|c' ls'].
    - simpl. destruct (length c <? size)%nat; lia.
    - rewrite (Hall 0%nat c) by (simpl; done || lia).
      rewrite Nat.ltb_irrefl. simpl plus. apply IH.
      intros i d Hd Hi. apply (Hall (S i) d); simpl in *; [done|lia]. }
  apply Hgen. intros i c Hc Hi. by apply (slices_sizes size i l c Hsize Hc).
Qed.

Lemma slices_full {A : Type} (size n : nat) (l : list A) :
  size <> 0%nat -> length l = (size * n)%nat ->
  Forall (fun c => length c = size) (slices size l).
Proof.
  intros Hsize Hlen. apply Forall_lookup. intros i c Hc.
  apply lookup_slices in Hc as [-> Hlt]. rewrite length_slices in Hlt.
  rewrite length_take, length_drop, Hlen in *.
  replace (size * n + size - 1)%nat with (size - 1 + n * size)%nat in Hlt by lia.
  rewrite Nat.div_add in Hlt by done.
  rewrite Nat.div_small in Hlt by lia. nia.
Qed.

(** *** The reading loop *)

Lemma truthy_readline (f : file) :
  Py.truthy (readline f).1 = match f with [] => false | _ => true end.
Proof. destruct f as [|l f]; [done|]. by destruct l. Qed.

Lemma readline_fresh (f : file) : fresh (readline f).1 (readline f).2.
Proof. unfold fresh. rewrite truthy_readline. by destruct f. Qed.

Lemma next_pass_eq (context_file qn_file ans_file : file)
    (examples : list example) :
  next_pass context_file qn_file ans_file examples
  = read_loop (readline context_file).1 (readline qn_file).1
      (readline ans_file).1 (readline context_file).2 (readline qn_file).2
      (readline ans_file).2 examples.
Proof.
  unfold next_pass.
  by destruct (readline context_file), (readline qn_file), (readline ans_file).
Qed.

(** Induction along the passes of the loop. *)
Lemma read_loop_induction
    (P : string -> string -> string -> file -> file -> file -> Prop) :
  (forall cl ql al cf qf af,
      (Py.truthy cl && Py.truthy ql && Py.truthy al = true ->
       P (readline cf).1 (readline qf).1 (readline af).1
         (readline cf).2 (readline qf).2 (readline af).2) ->
      P cl ql al cf qf af) ->
  forall cl ql al cf qf af, P cl ql al cf qf af.
Proof.
  intros Hstep cl ql al cf. revert cl ql al.
  induction cf as [|l cf IH]; intros cl ql al qf af; apply Hstep; intros _.
  - cbn [readline fst snd]. apply Hstep. intros Ht. discriminate.
  - cbn [readline fst snd]. apply IH.
Qed.

Lemma read_loop_facts (cl ql al : string) (cf qf af : file) :
  forall (examples pool : list example) (fs' : files),
    read_loop cl ql al cf qf af examples = Ok (pool, fs') ->
    (fresh cl cf -> fresh ql qf -> fresh al af ->
     length pool = (batch_size * 160)%nat \/ exhausted fs')
    /\ (length pool + length (context_file fs')
        <= length examples + (if Py.truthy cl then 1 else 0) + length cf)%nat
    /\ (Forall kept examples -> Forall kept pool).
Proof.
  revert cl ql al cf qf af.
  apply (read_loop_induction
           (fun cl ql al cf qf af =>
              forall examples pool fs',
                read_loop cl ql al cf qf af examples = Ok (pool, fs') ->
                (fresh cl cf -> fresh ql qf -> fresh al af ->
                 length pool = (batch_size * 160)%nat \/ exhausted fs')
                /\ (length pool + length (context_file fs')
                    <= length examples + (if Py.truthy cl then 1 else 0)
                       + length cf)%nat
                /\ (Forall kept examples -> Forall kept pool))).
  intros cl ql al cf qf af IH examples pool fs' H.
  rewrite read_loop_unfold in H.
  destruct (Py.truthy cl && Py.truthy ql && Py.truthy al) eqn:Ht.
  - specialize (IH eq_refl).
    apply andb_prop in Ht as [Ht _]. apply andb_prop in Ht as [Ht _].
    rewrite Ht.
    assert (Hlen : ((if Py.truthy (readline cf).1 then 1 else 0)
                    + length (readline cf).2 = length cf)%nat).
    { rewrite truthy_readline. by destruct cf. }
    destruct (body cl ql al) as [[|e]|err] eqn:Hb; cbn [rbind] in H;
      [| |discriminate].
    + rewrite next_pass_eq in H.
      destruct (IH _ _ _ H) as (H1 & H2 & H3).
      split; [|split; [lia|done]].
      intros _ _ _. apply H1; apply readline_fresh.
    + assert (Hk : kept e) by (by exists cl, ql, al).
      destruct (Nat.eqb_spec (length (examples ++ [e])) (batch_size * 160))
        as [Hcap|Hcap].
      * injection H as Hp Hf; subst pool fs'. cbn [context_file].
        split; [by left|]. split.
        -- rewrite length_app in *. cbn [length] in *. lia.
        -- intros Hall. apply Forall_app. split; [done|]. by constructor.
      * rewrite next_pass_eq in H.
        destruct (IH _ _ _ H) as (H1 & H2 & H3).
        rewrite length_app in H2. cbn [length] in H2.
        split; [|split; [lia|]].
        -- intros _ _ _. apply H1; apply readline_fresh.
        -- intros Hall. apply H3, Forall_app. split; [done|]. by constructor.
  - injection H as Hp Hf; subst pool fs'. cbn [context_file].
    split; [|split; [lia|done]].
    intros Hc Hq Ha. right. unfold exhausted. cbn [context_file qn_file ans_file].
    destruct (Py.truthy cl) eqn:E1; [|left; by apply Hc].
    destruct (Py.truthy ql) eqn:E2; [|right; left; by apply Hq].
    destruct (Py.truthy al) eqn:E3; [discriminate|right; right; by apply Ha].
Qed.

Lemma next_pass_facts (cf qf af : file) (pool : list example) (fs' : files) :
  next_pass cf qf af [] = Ok (pool, fs') ->
  (length pool = (batch_size * 160)%nat \/ exhausted fs')
  /\ (length pool + length (context_file fs') <= length cf)%nat
  /\ Forall kept pool.
Proof.
  rewrite next_pass_eq. intros H.
  destruct (read_loop_facts _ _ _ _ _ _ _ _ _ H) as (H1 & H2 & H3).
  split; [apply H1; apply readline_fresh|]. split; [|by apply H3].
  cbn [length] in H2. rewrite truthy_readline in H2.
  destruct cf; cbn [readline snd length] in *; lia.
Qed.

(** Once a file has no line left the loop is not entered any more. *)
Lemma next_pass_exhausted (cf qf af : file) (examples : list example) :
  exhausted (Files cf qf af) ->
  next_pass cf qf af examples
  = Ok (examples, Files (readline cf).2 (readline qf).2 (readline af).2)
  /\ exhausted (Files (readline cf).2 (readline qf).2 (readline af).2).
Proof.
  unfold exhausted. cbn [context_file qn_file ans_file]. intros H.
  rewrite next_pass_eq, read_loop_unfold, !truthy_readline.
  destruct H as [-> | [-> | ->]]; cbn [readline snd].
  - split; [done|by left].
  - split; [by destruct cf|by right; left].
  - split; [by destruct cf, qf|by right; right].
Qed.

(** The pool never grows beyond [batch_size * 160] examples. *)
Lemma read_loop_cap (cl ql al : string) (cf qf af : file) :
  forall (examples pool : list example) (fs' : files),
    read_loop cl ql al cf qf af examples = Ok (pool, fs') ->
    (length examples < batch_size * 160)%nat ->
    (length pool <= batch_size * 160)%nat.
Proof.
  revert cl ql al cf qf af.
  apply (read_loop_induction
           (fun cl ql al cf qf af =>
              forall examples pool fs',
                read_loop cl ql al cf qf af examples = Ok (pool, fs') ->
                (length examples < batch_size * 160)%nat ->
                (length pool <= batch_size * 160)%nat)).
  intros cl ql al cf qf af IH examples pool fs' H Hlt.
  rewrite read_loop_unfold in H.
  destruct (Py.truthy cl && Py.truthy ql && Py.truthy al) eqn:Ht.
  - specialize (IH eq_refl).
    destruct (body cl ql al) as [[|e]|err] eqn:Hb; cbn [rbind] in H;
      [| |discriminate].
    + rewrite next_pass_eq in H. by apply (IH _ _ _ H).
    + destruct (Nat.eqb_spec (length (examples ++ [e])) (batch_size * 160))
        as [Hcap|Hcap].
      * injection H as Hp Hf; subst pool fs'. lia.
      * rewrite next_pass_eq in H. apply (IH _ _ _ H).
        rewrite length_app in *. cbn [length] in *. lia.
  - injection H as Hp Hf; subst pool fs'. lia.
Qed.

(** *** One refill *)

Lemma refill_batches_inv (batches : list raw_batch) (fs : files) (g : rng)
    (batches' : list raw_batch) (fs' : files) (g' : rng) :
  refill_batches batches fs g = Ok (batches', fs', g') ->
  batch_size <> 0%nat
  /\ exists pool,
      next_pass (context_file fs) (qn_file fs) (ans_file fs) [] = Ok (pool, fs')
      /\ shuffle
           (batches ++ map zip_star (slices batch_size (sorted qn_length pool)))
           g = (batches', g').
Proof.
  unfold refill_batches, next_pass.
  destruct (readline (context_file fs)), (readline (qn_file fs)),
    (readline (ans_file fs)).
  intros H. apply rbind_Ok in H as ([pool fs1] & Hpool & H).
  destruct (Nat.eq_dec batch_size 0%nat) as [Hz|Hnz].
  { unfold xrange in H. rewrite Hz in H. discriminate. }
  split; [done|]. exists pool.
  unfold xrange in H. rewrite (proj2 (Nat.eqb_neq _ _) Hnz) in H.
  cbn [rbind] in H. rewrite map_map in H.
  unfold qn_length, slices.
  destruct (shuffle _ g) as [bs g1] eqn:Hsh in H.
  injection H as Hb Hf Hg; subst bs fs1 g1.
  split; [done|]. by rewrite map_map.
Qed.

Lemma slices_good (pool : list example) :
  batch_size <> 0%nat -> Forall kept pool ->
  Forall good_chunk (slices batch_size (sorted qn_length pool)).
Proof.
  intros Hsize Hkept. apply Forall_lookup. intros i c Hc.
  destruct (slices_sizes _ _ _ _ Hsize Hc) as [[Hpos Hle] _].
  apply lookup_slices in Hc as [-> _].
  split; [by intros E; rewrite E in Hpos; simpl in Hpos; lia|].
  split; [done|]. split.
  - apply Forall_take, Forall_drop.
    by rewrite <- (sorted_Permutation qn_length pool).
  - apply sorted_by_take_drop, sorted_sorted.
Qed.

Lemma refill_pending (batches : list raw_batch) (fs : files) (g : rng)
    (batches' : list raw_batch) (fs' : files) (g' : rng) :
  refill_batches batches fs g = Ok (batches', fs', g') ->
  Forall pending batches -> Forall pending batches'.
Proof.
  intros H Hold. apply refill_batches_inv in H as (Hsize & pool & Hpool & Hsh).
  apply next_pass_facts in Hpool as (_ & _ & Hkept).
  pose proof (shuffle_Permutation
                (batches ++ map zip_star
                              (slices batch_size (sorted qn_length pool))) g)
    as Hperm.
  rewrite Hsh in Hperm. cbn [fst] in Hperm. rewrite Hperm.
  apply Forall_app. split; [done|].
  apply List.Forall_map. eapply Forall_impl; [by apply slices_good|].
  intros c Hc. by exists c.
Qed.

Lemma count_short_map {A B : Type} (f : A -> B) (size : nat)
    (ls : list (list A)) :
  count_short size (map (map f) ls) = count_short size ls.
Proof.
  induction ls as [|l ls IH]; [done|]. cbn [map count_short].
  by rewrite length_map, IH.
Qed.

Lemma context_tokens_zip_star (chunks : list (list example)) :
  map context_tokens_batch (map zip_star chunks)
  = map (map ex_context_tokens) chunks.
Proof. by rewrite map_map. Qed.

(** A refill leaves only full batches, or at most one short batch and a
    file at its end. *)
Lemma refill_short (fs : files) (g : rng)
    (batches' : list raw_batch) (fs' : files) (g' : rng) :
  refill_batches [] fs g = Ok (batches', fs', g') ->
  count_short batch_size (map context_tokens_batch batches') = 0%nat
  \/ (exhausted fs'
      /\ (count_short batch_size (map context_tokens_batch batches') <= 1)%nat).
Proof.
  intros H. apply refill_batches_inv in H as (Hsize & pool & Hpool & Hsh).
  apply next_pass_facts in Hpool as (Hend & _ & _).
  pose proof (shuffle_Permutation
                ([] ++ map zip_star
                         (slices batch_size (sorted qn_length pool))) g)
    as Hperm.
  rewrite Hsh in Hperm. cbn [fst app] in Hperm.
  rewrite (count_short_Permutation _ _ _ (Permutation_map _ Hperm)).
  rewrite context_tokens_zip_star, count_short_map.
  destruct Hend as [Hcap|Hex].
  - left. apply count_short_full, (slices_full _ 160); [done|].
    by rewrite <- (Permutation_length (sorted_Permutation qn_length pool)).
  - right. split; [done|]. by apply count_short_slices.
Qed.

Lemma slices_nil {A : Type} (size : nat) :
  size <> 0%nat -> slices size (@nil A) = [].
Proof.
  intros Hsize. unfold slices. cbn [length plus].
  rewrite Nat.div_small by lia. done.
Qed.

Lemma shuffle_nil {A : Type} (g : rng) : shuffle (@nil A) g = ([], g).
Proof. reflexivity. Qed.

(** After the end of a file a refill adds nothing. *)
Lemma refill_exhausted (fs : files) (g : rng)
    (batches' : list raw_batch) (fs' : files) (g' : rng) :
  exhausted fs ->
  refill_batches [] fs g = Ok (batches', fs', g') ->
  batches' = [] /\ exhausted fs'.
Proof.
  intros Hex H. apply refill_batches_inv in H as (Hsize & pool & Hpool & Hsh).
  destruct fs as [cf qf af]. cbn [context_file qn_file ans_file] in Hpool.
  destruct (next_pass_exhausted cf qf af [] Hex) as [Hnp Hex'].
  rewrite Hnp in Hpool. injection Hpool as Hp Hf; subst pool fs'.
  cbn [sorted foldr app map] in Hsh.
  rewrite slices_nil in Hsh by done. cbn [map] in Hsh.
  rewrite shuffle_nil in Hsh. injection Hsh as Hb Hg; subst. done.
Qed.

(** *** The generator *)

Lemma gen_next_pop (st : gen_state) (b : raw_batch) (rest : list raw_batch) :
  g_batches st = b :: rest ->
  gen_next st
  = (do batch <- materialize b;
     Ok (Some (batch, GenState (g_files st) rest (g_rng st)))).
Proof. intros H. unfold gen_next. rewrite H. cbn [rbind]. by rewrite H. Qed.

Lemma gen_next_Some (st : gen_state) (batch : Batch.t) (st' : gen_state) :
  gen_next st = Ok (Some (batch, st')) ->
  exists b batches fs g,
    materialize b = Ok batch
    /\ st' = GenState fs batches g
    /\ ((g_batches st = b :: batches /\ fs = g_files st /\ g = g_rng st)
        \/ (g_batches st = []
            /\ refill_batches [] (g_files st) (g_rng st)
               = Ok (b :: batches, fs, g))).
Proof.
  destruct (g_batches st) as [|b rest] eqn:Hb.
  - unfold gen_next. rewrite Hb. intros H.
    apply rbind_Ok in H as (st1 & Hst1 & H).
    apply rbind_Ok in Hst1 as ([[batches fs] g] & Hre & Hst1).
    injection Hst1 as <-. cbn [g_batches g_files g_rng] in H.
    destruct batches as [|b rest]; [discriminate|].
    apply rbind_Ok in H as (batch' & Hm & H). injection H as <- <-.
    exists b, rest, fs, g. split; [done|]. split; [done|]. by right.
  - rewrite (gen_next_pop _ _ _ Hb). intros H.
    apply rbind_Ok in H as (batch' & Hm & H). injection H as <- <-.
    exists b, rest, (g_files st), (g_rng st).
    split; [done|]. split; [done|]. by left.
Qed.

(** A property every step establishes holds of every batch of a run. *)
Lemma run_Forall (I : gen_state -> Prop) (Q : Batch.t -> Prop) :
  (forall st batch st',
      I st -> gen_next st = Ok (Some (batch, st')) -> Q batch /\ I st') ->
  forall n st, I st -> Forall Q (run n st).1.
Proof.
  intros Hstep. induction n as [|n IH]; intros st Hst; [constructor|].
  cbn [run]. destruct (gen_next st) as [[[batch st']|]|e] eqn:Hn;
    try constructor.
  destruct (Hstep _ _ _ Hst Hn) as [HQ HI].
  specialize (IH st' HI). destruct (run n st') as [batches r].
  by constructor.
Qed.

Lemma gen_next_yielded (st : gen_state) (batch : Batch.t) (st' : gen_state) :
  Forall pending (g_batches st) ->
  gen_next st = Ok (Some (batch, st')) ->
  yielded batch /\ Forall pending (g_batches st').
Proof.
  intros Hst H.
  apply gen_next_Some in H
    as (b & batches & fs & g & Hm & -> & [(Hb & _ & _)|(Hb & Hre)]).
  - rewrite Hb in Hst. apply Forall_cons in Hst as [(chunk & Hgood & ->) Hrest].
    split; [by exists chunk|done].
  - apply refill_pending in Hre; [|constructor].
    apply Forall_cons in Hre as [(chunk & Hgood & ->) Hrest].
    split; [by exists chunk|done].
Qed.

(** Every batch a generator yields is a materialized good chunk. *)
Lemma run_yielded (n : nat) (context_path qn_path ans_path : file) (g : rng) :
  Forall yielded (run n (get_batch_generator context_path qn_path ans_path g)).1.
Proof.
  apply (run_Forall (fun st => Forall pending (g_batches st)) yielded).
  - intros st batch st'. apply gen_next_yielded.
  - constructor.
Qed.

Lemma gen_next_short (st : gen_state) (batch : Batch.t) (st' : gen_state)
    (c : nat) :
  (count_short batch_size (map context_tokens_batch (g_batches st)) = 0
   /\ 1 <= c)%nat
  \/ (exhausted (g_files st)
      /\ (count_short batch_size (map context_tokens_batch (g_batches st))
          <= c)%nat) ->
  gen_next st = Ok (Some (batch, st')) ->
  exists c',
    ((count_short batch_size (map context_tokens_batch (g_batches st')) = 0
      /\ 1 <= c')%nat
     \/ (exhausted (g_files st')
         /\ (count_short batch_size (map context_tokens_batch (g_batches st'))
             <= c')%nat))
    /\ (count_short batch_size [Batch.context_tokens batch] + c' <= c)%nat.
Proof.
  intros Hinv H.
  apply gen_next_Some in H
    as (b & batches & fs & g & Hm & -> & [(Hb & -> & ->)|(Hb & Hre)]);
    apply materialize_frame in Hm as (_ & _ & -> & _);
    cbn [g_batches g_files count_short].
  - rewrite Hb in Hinv. cbn [map count_short] in Hinv.
    destruct Hinv as [[H0 Hc]|[Hex Hle]].
    + exists c. split; [left; lia|lia].
    + exists (c - (if (length (context_tokens_batch b) <? batch_size)%nat
                   then 1 else 0))%nat.
      split; [right; split; [done|lia]|lia].
  - rewrite Hb in Hinv. cbn [map count_short] in Hinv.
    destruct Hinv as [[_ Hc]|[Hex _]].
    + apply refill_short in Hre. cbn [map count_short] in Hre.
      destruct Hre as [H0|[Hex Hle]].
      * exists c. split; [left; lia|lia].
      * exists (c - (if (length (context_tokens_batch b) <? batch_size)%nat
                     then 1 else 0))%nat.
        split; [right; split; [done|lia]|lia].
    + by destruct (refill_exhausted _ _ _ _ _ Hex Hre) as [? _].
Qed.

Lemma run_short (n : nat) :
  forall (st : gen_state) (c : nat),
    (count_short batch_size (map context_tokens_batch (g_batches st)) = 0
     /\ 1 <= c)%nat
    \/ (exhausted (g_files st)
        /\ (count_short batch_size (map context_tokens_batch (g_batches st))
            <= c)%nat) ->
    (count_short batch_size (map Batch.context_tokens (run n st).1) <= c)%nat.
Proof.
  induction n as [|n IH]; intros st c Hinv; [simpl; lia|].
  cbn [run]. destruct (gen_next st) as [[[batch st']|]|e] eqn:Hn;
    try (simpl; lia).
  destruct (gen_next_short _ _ _ _ Hinv Hn) as (c' & Hinv' & Hle).
  specialize (IH st' c' Hinv'). destruct (run n st') as [batches r].
  cbn [fst map count_short] in *. lia.
Qed.

Lemma materialize_dims (chunk : list example) (batch : Batch.t) :
  materialize (zip_star chunk) = Ok batch ->
  Forall (fun d => d = length chunk) (leading_dims batch)
  /\ Batch.batch_size batch = length chunk.
Proof.
  intros H. apply materialize_inv in H
    as (qi & ci & fe & ch & chQ & qm & qe & cm & ce
        & H1 & H2 & H3 & H4 & H5 & H6 & H7 & H8 & H9 & ->).
  apply pad_rows_length in H1, H2, H3, H4, H5, H6, H7, H8, H9.
  cbn [zip_star qn_ids_batch context_ids_batch feats_batch char_ids_batch
       charQ_ids_batch commonQ_mask_batch commonQ_emb_indices_batch
       commonC_mask_batch commonC_emb_indices_batch] in *.
  rewrite length_map in *.
  unfold leading_dims. cbn. rewrite !length_map.
  split; [|done]. repeat constructor; done.
Qed.

Lemma yielded_dims (batch : Batch.t) :
  yielded batch ->
  Forall (fun d => d = Batch.batch_size batch) (leading_dims batch)
  /\ (1 <= Batch.batch_size batch <= batch_size)%nat.
Proof.
  intros (chunk & (Hne & Hle & _ & _) & Hm).
  apply materialize_dims in Hm as [Hdims ->]. split; [done|].
  destruct chunk; [done|]. simpl in *. lia.
Qed.

(** *** Masks *)

Lemma row_sum_mask (ids : list Z) (k : nat) :
  Forall (fun x => x <> PAD_ID) ids ->
  row_sum (map mask_of (ids ++ repeat PAD_ID k)) = Z.of_nat (length ids).
Proof.
  unfold row_sum, mask_of. induction 1 as [|x ids Hx _ IH].
  - induction k as [|k IHk]; [done|].
    cbn [app repeat map foldr] in *. rewrite IHk, Z.eqb_refl. done.
  - cbn [app map foldr length]. rewrite IH.
    rewrite (proj2 (Z.eqb_neq _ _) Hx). cbn [negb Py.int_of_bool]. lia.
Qed.

(** The ids of a kept example are those of its tokens, cut at the
    configured length. *)
Lemma kept_ids (e : example) :
  kept e ->
  ex_context_ids e = firstn context_len (map word_id (ex_context_tokens e))
  /\ ex_qn_ids e = firstn question_len (map word_id (ex_qn_tokens e)).
Proof.
  intros (cl & ql & al & Hb).
  apply body_Kept in Hb as (e0 & start & end_ & He0 & _ & _ & Hp).
  apply extract_inv in He0 as (sp & ch & chQ & tf & _ & _ & _ & _ & ->).
  apply length_policy_Kept in Hp as [-> _].
  unfold sentence_to_token_ids.
  cbn [set_ans_tokens ex_qn_ids ex_context_ids fst snd].
  destruct (Nat.ltb_spec question_len
              (length (map word_id (split_by_whitespace ql)))) as [Hq|Hq];
    destruct (Nat.ltb_spec context_len
                (length (map word_id (split_by_whitespace cl)))) as [Hc|Hc];
    cbn [id truncate_context truncate_question set_ans_tokens ex_context_ids
         ex_qn_ids ex_context_tokens ex_qn_tokens];
    unfold Py.take;
    rewrite ?(take_ge (map word_id (split_by_whitespace cl))) by lia;
    rewrite ?(take_ge (map word_id (split_by_whitespace ql))) by lia; done.
Qed.



Lemma Forall2_map_same {A B C : Type} (P : B -> C -> Prop) (f : A -> B)
    (g : A -> C) (l : list A) :
  Forall (fun x => P (f x) (g x)) l -> Forall2 P (map f l) (map g l).
Proof. induction 1; constructor; done. Qed.

(** In a yielded batch the sum of a mask row counts the ids of the
    example, provided none of them is [PAD_ID]. *)
Lemma yielded_mask_sums (batch : Batch.t) :
  yielded batch ->
  Forall2 (fun row toks =>
             Forall (fun x => x <> PAD_ID) (firstn context_len (map word_id toks)) ->
             row_sum row = Z.of_nat (Nat.min (length toks) context_len))
          (Batch.context_mask batch) (Batch.context_tokens batch)
  /\ Forall2 (fun row toks =>
                Forall (fun x => x <> PAD_ID)
                       (firstn question_len (map word_id toks)) ->
                row_sum row = Z.of_nat (Nat.min (length toks) question_len))
             (Batch.qn_mask batch) (Batch.qn_tokens batch).
Proof.
  intros (chunk & (_ & _ & Hkept & _) & Hm).
  apply materialize_inv in Hm
    as (qi & ci & fe & ch & chQ & qm & qe & cm & ce
        & Hq & Hc & _ & _ & _ & _ & _ & _ & _ & ->).
  cbn [Batch.init Batch.context_mask Batch.context_tokens Batch.qn_mask
       Batch.qn_tokens zip_star context_tokens_batch qn_tokens_batch
       qn_ids_batch context_ids_batch] in *.
  assert (Hids : Forall (fun e =>
             ex_context_ids e
             = firstn context_len (map word_id (ex_context_tokens e))
             /\ ex_qn_ids e
                = firstn question_len (map word_id (ex_qn_tokens e))) chunk).
  { eapply Forall_impl; [exact Hkept|]. apply kept_ids. }
  apply pad_rows_width in Hq as [-> _], Hc as [-> _].
  - rewrite !map_map. split; apply Forall2_map_same;
      (eapply Forall_impl; [exact Hids|]); intros e [Ec Eq] Hpad.
    + rewrite Ec, row_sum_mask by exact Hpad.
      rewrite length_take, length_map. f_equal. lia.
    + rewrite Eq, row_sum_mask by exact Hpad.
      rewrite length_take, length_map. f_equal. lia.
  - apply List.Forall_map. eapply Forall_impl; [exact Hids|].
    intros e [-> _]. cbv beta. rewrite length_take. lia.
  - apply List.Forall_map. eapply Forall_impl; [exact Hids|].
    intros e [_ ->]. cbv beta. rewrite length_take. lia.
Qed.

(** A refill makes at most 160 batches. *)
Lemma refill_length (fs : files) (g : rng)
    (batches' : list raw_batch) (fs' : files) (g' : rng) :
  refill_batches [] fs g = Ok (batches', fs', g') ->
  (length batches' <= 160)%nat.
Proof.
  intros H. apply refill_batches_inv in H as (Hsize & pool & Hpool & Hsh).
  rewrite next_pass_eq in Hpool. apply read_loop_cap in Hpool; [|simpl; lia].
  pose proof (shuffle_Permutation
                ([] ++ map zip_star
                         (slices batch_size (sorted qn_length pool))) g)
    as Hperm.
  rewrite Hsh in Hperm. cbn [fst app] in Hperm.
  rewrite (Permutation_length Hperm), length_map, length_slices.
  rewrite <- (Permutation_length (sorted_Permutation qn_length pool)).
  apply Nat.lt_succ_r, Nat.Div0.div_lt_upper_bound. lia.
Qed.

(** After the end of a file only the pending batches are yielded. *)
Lemma run_exhausted_length (n : nat) :
  forall st, exhausted (g_files st) ->
             (length (run n st).1 <= length (g_batches st))%nat.
Proof.
  induction n as [|n IH]; intros st Hex; [simpl; lia|].
  cbn [run]. destruct (gen_next st) as [[[batch st']|]|e] eqn:Hn;
    try (simpl; lia).
  apply gen_next_Some in Hn
    as (b & batches & fs & g & _ & -> & [(Hb & -> & ->)|(Hb & Hre)]).
  - specialize (IH (GenState (g_files st) batches (g_rng st)) Hex).
    destruct (run n _) as [ys r]. rewrite Hb. cbn [fst length g_batches] in *. lia.
  - by destruct (refill_exhausted _ _ _ _ _ Hex Hre) as [? _].
Qed.

Lemma gen_next_tail (st : gen_state) (batch : Batch.t) (st' : gen_state) :
  count_short batch_size (map context_tokens_batch (g_batches st)) = 0%nat
  \/ (exhausted (g_files st) /\ (length (g_batches st) <= 160)%nat) ->
  gen_next st = Ok (Some (batch, st')) ->
  (count_short batch_size (map context_tokens_batch (g_batches st')) = 0%nat
   \/ (exhausted (g_files st') /\ (length (g_batches st') <= 160)%nat))
  /\ ((length (Batch.context_tokens batch) < batch_size)%nat ->
      exhausted (g_files st') /\ (length (g_batches st') < 160)%nat).
Proof.
  intros Hinv H.
  apply gen_next_Some in H
    as (b & batches & fs & g & Hm & -> & [(Hb & -> & ->)|(Hb & Hre)]);
    apply materialize_frame in Hm as (_ & _ & -> & _);
    cbn [g_batches g_files].
  - rewrite Hb in Hinv. cbn [map count_short length] in Hinv.
    destruct (Nat.ltb_spec (length (context_tokens_batch b)) batch_size);
      destruct Hinv as [H0|[Hex Hle]];
      (split; [first [left; lia|right; split; [done|lia]]|]);
      intros; first [lia|split; [done|lia]].
  - pose proof (refill_length _ _ _ _ _ Hre) as Hlen.
    apply refill_short in Hre. cbn [map count_short length] in Hre, Hlen.
    destruct (Nat.ltb_spec (length (context_tokens_batch b)) batch_size);
      destruct Hre as [H0|[Hex Hle]];
      (split; [first [left; lia|right; split; [done|lia]]|]);
      intros; first [lia|split; [done|lia]].
Qed.

Lemma run_tail (n : nat) :
  forall st,
    count_short batch_size (map context_tokens_batch (g_batches st)) = 0%nat
    \/ (exhausted (g_files st) /\ (length (g_batches st) <= 160)%nat) ->
    forall i batch,
      (run n st).1 !! i = Some batch ->
      (length (Batch.context_tokens batch) < batch_size)%nat ->
      (length (run n st).1 <= i + 160)%nat.
Proof.
  induction n as [|n IH]; intros st Hinv i batch Hi Hshort; [done|].
  cbn [run] in *. destruct (gen_next st) as [[[batch0 st']|]|e] eqn:Hn;
    try done.
  destruct (gen_next_tail _ _ _ Hinv Hn) as [Hinv' Hlast].
  specialize (IH st' Hinv').
  pose proof (run_exhausted_length n st') as Hex.
  destruct (run n st') as [ys r]. cbn [fst length] in *.
  destruct i as [|i]; cbn in Hi.
  - injection Hi as ->. destruct (Hlast Hshort) as [Hex' Hlt].
    specialize (Hex Hex'). lia.
  - specialize (IH i batch Hi Hshort). lia.
Qed.

(** *** Refills and batches *)


(** C8.  In every batch a generator yields, and for every example of the
    batch none of whose unpadded word ids is [PAD_ID], the sum of the row
    of [context_mask] is [min(len(context_tokens), context_len)] and the
    sum of the row of [qn_mask] is [min(len(qn_tokens), question_len)];
    the unpadded ids of the example are those of its tokens, cut at
    [context_len] or [question_len]. *)
Theorem mask_sum_is_capped_length (n : nat)
    (context_path qn_path ans_path : file) (g : rng) :
  Forall (fun batch =>
            Forall2 (fun row toks =>
                       Forall (fun x => x <> PAD_ID)
                              (firstn context_len (map word_id toks)) ->
                       row_sum row
                       = Z.of_nat (Nat.min (length toks) context_len))
                    (Batch.context_mask batch) (Batch.context_tokens batch)
            /\ Forall2 (fun row toks =>
                          Forall (fun x => x <> PAD_ID)
                                 (firstn question_len (map word_id toks)) ->
                          row_sum row
                          = Z.of_nat (Nat.min (length toks) question_len))
                       (Batch.qn_mask batch) (Batch.qn_tokens batch))
         (run n (get_batch_generator context_path qn_path ans_path g)).1.
Proof.
  eapply Forall_impl; [apply run_yielded|]. apply yielded_mask_sums.
Qed.

(** C2, as the code has it.  In every batch a generator yields, every
    field has as leading dimension the number of examples of the batch,
    which is at least 1 and at most [batch_size]; at most one batch of
    the whole stream has fewer than [batch_size] examples, and fewer
    than 160 batches follow it (it belongs to the last refill, whose
    batches are yielded in shuffled order). *)
Theorem batch_sizes_of_stream (n : nat) (context_path qn_path ans_path : file)
    (g : rng) :
  let batches := (run n (get_batch_generator context_path qn_path ans_path g)).1 in
  Forall (fun batch =>
            Forall (fun d => d = Batch.batch_size batch) (leading_dims batch)
            /\ (1 <= Batch.batch_size batch <= batch_size)%nat)
         batches
  /\ (count_short batch_size (map Batch.context_tokens batches) <= 1)%nat
  /\ (forall i batch,
         batches !! i = Some batch ->
         (Batch.batch_size batch < batch_size)%nat ->
         (length batches <= i + 160)%nat).
Proof.
  cbv zeta. split; [|split].
  - eapply Forall_impl; [apply run_yielded|]. apply yielded_dims.
  - apply run_short. left. simpl. lia.
  - intros i batch Hi Hshort.
    assert (Hy : yielded batch).
    { pose proof (run_yielded n context_path qn_path ans_path g) as Hall.
      rewrite Forall_lookup in Hall. by apply (Hall i). }
    destruct Hy as (chunk & _ & Hm).
    pose proof (materialize_dims _ _ Hm) as [_ Hsize].
    apply materialize_frame in Hm as (_ & _ & Hct & _).
    apply (run_tail n (get_batch_generator context_path qn_path ans_path g))
      with (batch := batch); [by left|exact Hi|].
    rewrite Hct. cbn [zip_star context_tokens_batch]. rewrite length_map. lia.
Qed.

(** *** Termination and the cap of the pool *)

Lemma length_slices_le {A : Type} (size : nat) (l : list A) :
  size <> 0%nat -> (length (slices size l) <= length l)%nat.
Proof.
  intros Hsize. rewrite length_slices.
  apply Nat.lt_succ_r, Nat.Div0.div_lt_upper_bound. nia.
Qed.

Lemma gen_next_measure (st : gen_state) (batch : Batch.t) (st' : gen_state) :
  gen_next st = Ok (Some (batch, st')) ->
  (length (g_batches st') + length (context_file (g_files st'))
   < length (g_batches st) + length (context_file (g_files st)))%nat.
Proof.
  intros H.
  apply gen_next_Some in H
    as (b & batches & fs & g & _ & -> & [(Hb & -> & ->)|(Hb & Hre)]);
    rewrite Hb; cbn [g_batches g_files length]; [lia|].
  apply refill_batches_inv in Hre as (Hsize & pool & Hpool & Hsh).
  apply next_pass_facts in Hpool as (_ & Hlen & _).
  pose proof (shuffle_Permutation
                ([] ++ map zip_star
                         (slices batch_size (sorted qn_length pool))) (g_rng st))
    as Hperm.
  rewrite Hsh in Hperm. cbn [fst app] in Hperm.
  apply Permutation_length in Hperm.
  rewrite length_map in Hperm.
  pose proof (length_slices_le batch_size (sorted qn_length pool) Hsize) as Hle.
  rewrite <- (Permutation_length (sorted_Permutation qn_length pool)) in Hle.
  cbn [length] in Hperm. lia.
Qed.

(** Asked more often than there are pending batches and unread context
    lines, the generator has returned or raised. *)
Theorem run_terminates (n : nat) (st : gen_state) :
  (length (g_batches st) + length (context_file (g_files st)) < n)%nat ->
  (run n st).2 = Exhausted \/ exists e, (run n st).2 = Raised e.
Proof.
  revert st; induction n as [|n IH]; intros st Hlt; [lia|].
  cbn [run]. destruct (gen_next st) as [[[batch st']|]|e] eqn:Hn;
    [|by left|right; by exists e].
  pose proof (gen_next_measure _ _ _ Hn) as Hm.
  specialize (IH st' ltac:(lia)). by destruct (run n st') as [batches r].
Qed.

(** When the pool reaches the cap the loop stops after it has read the
    next line of every file: that triple is read and never processed. *)
Theorem read_ahead_dropped_at_cap (context_line qn_line ans_line : string)
    (context_file qn_file ans_file : file) (examples : list example)
    (e : example) :
  Py.truthy context_line && Py.truthy qn_line && Py.truthy ans_line = true ->
  body context_line qn_line ans_line = Ok (Kept e) ->
  length (examples ++ [e]) = (batch_size * 160)%nat ->
  read_loop context_line qn_line ans_line context_file qn_file ans_file examples
  = Ok (examples ++ [e],
        Files (drop 1 context_file) (drop 1 qn_file) (drop 1 ans_file)).
Proof.
  intros Ht Hb Hcap. rewrite read_loop_unfold, Ht, Hb. cbn [rbind].
  rewrite (proj2 (Nat.eqb_eq _ _) Hcap).
  by destruct context_file, qn_file, ans_file.
Qed.

(** *** Tokenization *)

Lemma chars_string_of_list (l : list ascii) :
  Py.chars (string_of_list_ascii l) = l.
Proof. apply list_ascii_of_string_of_list_ascii. Qed.

Lemma string_of_chars (w : string) : string_of_list_ascii (Py.chars w) = w.
Proof. apply string_of_list_ascii_of_string. Qed.

Lemma chars_append (u v : string) :
  Py.chars (String.append u v) = Py.chars u ++ Py.chars v.
Proof. induction u as [|c u IH]; simpl; [done|]. by rewrite <- IH. Qed.

Lemma string_of_list_nonempty (l : list ascii) :
  l <> [] -> string_of_list_ascii l <> EmptyString.
Proof. by destruct l. Qed.

Lemma split_go_tokens (cur s : list ascii) :
  Forall (fun c => Py.isspace c = false) cur ->
  Forall is_token (Py.split_go cur s).
Proof.
  revert cur; induction s as [|c s IH]; intros cur Hcur; cbn [Py.split_go].
  - destruct cur as [|c0 cur]; [constructor|].
    constructor; [|constructor]. split.
    + apply string_of_list_nonempty. intros E. apply (f_equal length) in E.
      rewrite length_rev in E. discriminate.
    + rewrite chars_string_of_list. by apply Forall_rev.
  - destruct (Py.isspace c) eqn:Hc.
    + destruct cur as [|c0 cur]; [by apply IH|].
      constructor; [|by apply IH]. split.
      * apply string_of_list_nonempty. intros E. apply (f_equal length) in E.
        rewrite length_rev in E. discriminate.
      * rewrite chars_string_of_list. by apply Forall_rev.
    + apply IH. by constructor.
Qed.

Lemma re_split_space_go_token (cur s : list ascii) :
  Forall (fun c => Py.isspace c = false) s ->
  Py.re_split_space_go cur s = [string_of_list_ascii (rev cur ++ s)].
Proof.
  revert cur; induction s as [|c s IH]; intros cur Hs; cbn [Py.re_split_space_go].
  - by rewrite app_nil_r.
  - apply Forall_cons in Hs as [Hc Hs].
    destruct (Ascii.eqb_spec c " "%char) as [->|Hne]; [discriminate|].
    rewrite IH by done. cbn [rev]. by rewrite <- app_assoc.
Qed.

Lemma re_split_space_token (w : string) :
  is_token w -> Py.re_split_space w = [w].
Proof.
  intros [_ Hw]. unfold Py.re_split_space.
  rewrite re_split_space_go_token by done. cbn [rev app].
  by rewrite string_of_chars.
Qed.

Lemma split_go_lstrip (l : list ascii) :
  Py.split_go [] (Py.lstrip l) = Py.split_go [] l.
Proof.
  induction l as [|c l IH]; [done|]. cbn [Py.lstrip Py.split_go].
  destruct (Py.isspace c) eqn:Hc; [done|]. cbn [Py.split_go]. by rewrite Hc.
Qed.

Lemma split_go_trailing (cur l ws : list ascii) :
  Forall (fun c => Py.isspace c = true) ws ->
  Py.split_go cur (l ++ ws) = Py.split_go cur l.
Proof.
  intros Hws. revert cur; induction l as [|c l IH]; intros cur.
  - cbn [app]. revert cur. induction Hws as [|c ws Hc _ IHws]; intros cur; [done|].
    cbn [Py.split_go]. rewrite Hc. destruct cur as [|c0 cur].
    + by rewrite IHws.
    + by rewrite IHws.
  - cbn [app Py.split_go]. destruct (Py.isspace c); [|apply IH].
    destruct cur; by rewrite IH.
Qed.

Lemma lstrip_split (l : list ascii) :
  exists ws, Forall (fun c => Py.isspace c = true) ws /\ l = ws ++ Py.lstrip l.
Proof.
  induction l as [|c l (ws & Hws & IH)]; [by exists []|].
  cbn [Py.lstrip]. destruct (Py.isspace c) eqn:Hc.
  - exists (c :: ws). split; [by constructor|]. cbn [app]. by rewrite <- IH.
  - by exists [].
Qed.

Lemma split_strip (s : string) : Py.split (Py.strip s) = Py.split s.
Proof.
  unfold Py.split, Py.strip. rewrite chars_string_of_list.
  destruct (lstrip_split (rev (Py.lstrip (Py.chars s)))) as (ws & Hws & E).
  apply (f_equal (@rev ascii)) in E. rewrite rev_involutive, rev_app_distr in E.
  rewrite <- (split_go_lstrip (Py.chars s)). rewrite E at 2.
  symmetry. apply split_go_trailing. by apply Forall_rev.
Qed.

Lemma split_tokens (s : string) : Forall is_token (Py.split s).
Proof. apply split_go_tokens. constructor. Qed.

Lemma flat_map_re_split (tokens : list string) :
  Forall is_token tokens ->
  List.filter (fun w => Py.truthy w) (flat_map Py.re_split_space tokens) = tokens.
Proof.
  induction 1 as [|w tokens Hw _ IH]; [done|].
  cbn [flat_map]. rewrite (re_split_space_token w Hw). cbn [app List.filter].
  rewrite IH. destruct Hw as [Hne _]. by destruct w.
Qed.

Lemma split_by_whitespace_split (sentence : string) :
  split_by_whitespace sentence = Py.split sentence.
Proof.
  unfold split_by_whitespace. cbv zeta.
  rewrite flat_map_re_split by apply split_tokens. apply split_strip.
Qed.

(** [split_by_whitespace] is [sentence.split()]: stripping the sentence,
    cutting the pieces at spaces and dropping empty pieces change nothing;
    every token is non-empty and holds no whitespace. *)
Theorem split_by_whitespace_is_split (sentence : string) :
  split_by_whitespace sentence = Py.split sentence
  /\ Forall is_token (split_by_whitespace sentence).
Proof.
  split; [apply split_by_whitespace_split|].
  rewrite split_by_whitespace_split. apply split_tokens.
Qed.

Lemma split_go_word (cur w rest : list ascii) :
  Forall (fun c => Py.isspace c = false) w ->
  Py.split_go cur (w ++ rest) = Py.split_go (rev w ++ cur) rest.
Proof.
  revert cur; induction w as [|c w IH]; intros cur Hw; [done|].
  apply Forall_cons in Hw as [Hc Hw].
  cbn [app Py.split_go]. rewrite Hc, IH by done.
  cbn [rev]. by rewrite <- app_assoc.
Qed.

Lemma split_go_end (cur : list ascii) :
  cur <> [] -> Py.split_go cur [] = [string_of_list_ascii (rev cur)].
Proof. by destruct cur. Qed.

Lemma split_go_space (cur : list ascii) (c : ascii) (rest : list ascii) :
  Py.isspace c = true -> cur <> [] ->
  Py.split_go cur (c :: rest)
  = string_of_list_ascii (rev cur) :: Py.split_go [] rest.
Proof. intros Hc Hcur. cbn [Py.split_go]. rewrite Hc. by destruct cur. Qed.

Lemma split_go_join (tokens : list string) (tail : list ascii) :
  Forall is_token tokens ->
  Forall (fun c => Py.isspace c = true) tail ->
  Py.split_go [] (Py.chars (join_space tokens) ++ tail) = tokens.
Proof.
  intros Htok Htail. induction Htok as [|w tokens [Hne Hw] Hrest IH].
  - cbn [join_space Py.chars list_ascii_of_string app].
    exact (split_go_trailing [] [] tail Htail).
  - assert (Hcur : rev (Py.chars w) ++ [] <> []).
    { rewrite app_nil_r. intros E. apply (f_equal (@rev ascii)) in E.
      rewrite rev_involutive in E. cbn in E.
      apply Hne. rewrite <- (string_of_chars w), E. done. }
    assert (Htoken : string_of_list_ascii (rev (rev (Py.chars w) ++ [])) = w).
    { by rewrite app_nil_r, rev_involutive, string_of_chars. }
    destruct tokens as [|w' tokens].
    + cbn [join_space]. rewrite split_go_word by done.
      rewrite <- (app_nil_l tail), split_go_trailing by done.
      by rewrite split_go_end, Htoken.
    + change (join_space (w :: w' :: tokens))
        with (String.append w (String " "%char (join_space (w' :: tokens)))).
      rewrite chars_append, <- app_assoc, split_go_word by done.
      change (Py.chars (String " "%char (join_space (w' :: tokens))))
        with (" "%char :: Py.chars (join_space (w' :: tokens))).
      cbn [app]. rewrite split_go_space, Htoken by done.
      f_equal. apply IH.
Qed.

(** Tokens written on one line, separated by single spaces, are read back
    as they were. *)
Theorem split_join_round_trip (tokens : list string) :
  Forall is_token tokens ->
  split_by_whitespace (line (join_space tokens)) = tokens.
Proof.
  intros Htok. rewrite split_by_whitespace_split.
  unfold Py.split, line. rewrite chars_append.
  apply split_go_join; [done|]. repeat constructor.
Qed.

(** *** Padding, again *)

(** [padded], [paddedBool] and [padded2] never shorten a row: every row is
    kept and extended with the filler up to the target length, so it ends
    with the length [max(len(row), maxlen)]; padding a padded batch again
    changes nothing; the only exception is the [ValueError] of [max] on an
    empty batch when no target length is given. *)
Theorem padding_extends_rows {A : Type} (fill : A) (token_batch : list (list A))
    (batch_pad : nat) :
  (forall e, pad_rows fill token_batch batch_pad = Raise e <->
             e = ValueError /\ batch_pad = 0%nat /\ token_batch = [])
  /\ (forall rows,
         pad_rows fill token_batch batch_pad = Ok rows ->
         let maxlen := if (batch_pad =? 0)%nat
                       then list_max (map length token_batch) else batch_pad in
         Forall2 (fun row out =>
                    out = row ++ repeat fill (maxlen - length row)
                    /\ length out = Nat.max (length row) maxlen)
                 token_batch rows
         /\ pad_rows fill rows batch_pad = Ok rows).
Proof.
  split.
  - intros e. split.
    + unfold pad_rows. destruct (Nat.eqb_spec batch_pad 0) as [->|Hne];
        [|discriminate].
      destruct token_batch as [|r rs]; [|discriminate].
      cbn. intros [= <-]. done.
    + intros (-> & -> & ->). reflexivity.
  - intros rows H. cbv zeta.
    destruct (pad_rows_inv _ _ _ _ H) as [-> Hne].
    set (maxlen := if (batch_pad =? 0)%nat
                   then list_max (map length token_batch) else batch_pad).
    assert (Hrows : Forall (fun out => (maxlen <= length out)%nat /\
                              (batch_pad = 0%nat -> length out = maxlen))
                      (map (fun row => row ++ repeat fill (maxlen - length row))
                           token_batch)).
    { apply List.Forall_map, List.Forall_forall. intros row Hin. cbv beta.
      rewrite length_app, repeat_length. split; [lia|]. intros Hz.
      assert (length row <= maxlen)%nat; [|lia].
      unfold maxlen. rewrite Hz. cbn [Nat.eqb].
      pose proof (proj1 (list_max_le (map length token_batch) _) (Nat.le_refl _))
        as Hall.
      rewrite List.Forall_forall in Hall. apply Hall, in_map, Hin. }
    split.
    + rewrite <- (map_id token_batch) at 1.
      apply Forall2_map_same, List.Forall_forall. intros row _.
      split; [done|]. rewrite length_app, repeat_length. unfold id. lia.
    + destruct (pad_rows_ok fill
                  (map (fun row => row ++ repeat fill (maxlen - length row))
                       token_batch) batch_pad) as [rows' Hrows'].
      { destruct (Nat.eq_dec batch_pad 0%nat) as [Hz|Hnz]; [right|by left].
        destruct token_batch; [by apply Hne|done]. }
      rewrite Hrows'. f_equal.
      apply pad_rows_inv in Hrows' as [-> _].
      match goal with
      | |- map _ ?L = _ => transitivity (map id L); [|apply map_id]
      end.
      apply map_ext_Forall. eapply Forall_impl; [exact Hrows|].
      intros out [Hge Heq]. cbv beta.
      assert (E : ((if (batch_pad =? 0)%nat
                    then list_max
                           (map length
                              (map (fun row =>
                                      row ++ repeat fill (maxlen - length row))
                                   token_batch))
                    else batch_pad) - length out = 0)%nat).
      { destruct (Nat.eqb_spec batch_pad 0) as [Hz|Hnz].
        - apply Nat.sub_0_le. rewrite (Heq Hz). apply list_max_le.
          apply List.Forall_map. eapply Forall_impl; [exact Hrows|].
          intros out' [_ Heq']. cbv beta. rewrite (Heq' Hz). done.
        - unfold maxlen in Hge. cbv iota in Hge. lia. }
      rewrite E. apply app_nil_r.
Qed.

(** *** The answer tokens *)

Lemma slice_length_le {A : Type} (i j : Z) (l : list A) :
  i <= j -> (length (Py.slice i j l) <= Z.to_nat (j - i))%nat.
Proof.
  intros Hij. unfold Py.slice, Py.clamp.
  rewrite length_take, length_drop.
  destruct (Z.ltb_spec i 0); destruct (Z.ltb_spec j 0); lia.
Qed.

Lemma slice_nonneg {A : Type} (i j : Z) (l : list A) :
  0 <= i -> i <= j ->
  Py.slice i j l = take (Z.to_nat (j - i)) (drop (Z.to_nat i) l).
Proof.
  intros Hi Hij. unfold Py.slice, Py.clamp.
  destruct (Z.ltb_spec i 0); [lia|]. destruct (Z.ltb_spec j 0); [lia|].
  destruct (Nat.le_gt_cases (length l) (Z.to_nat i)) as [Hout|Hin].
  - rewrite Nat.min_r by lia. rewrite !drop_ge by lia. by rewrite !take_nil.
  - rewrite (Nat.min_l (Z.to_nat i)) by lia.
    destruct (Nat.le_gt_cases (Z.to_nat j) (length l)) as [Hj|Hj].
    + rewrite Nat.min_l by lia. f_equal. lia.
    + rewrite Nat.min_r by lia.
      rewrite !take_ge; [done|rewrite length_drop; lia|rewrite length_drop; lia].
Qed.

(** In an assembled example [ans_tokens] is never longer than
    [end - start + 1]; when the span lies inside the context
    ([0 <= start] and [end < len(context_tokens)]) it is exactly the
    [end - start + 1] tokens from position [start], and when the span runs
    beyond the context it is cut at the end of the context. *)
Theorem ans_tokens_of_span (context_line qn_line ans_line : string) (e : example) :
  body context_line qn_line ans_line = Ok (Kept e) ->
  exists start end_,
    ex_ans_span e = [start; end_] /\ start <= end_
    /\ (length (ex_ans_tokens e) <= Z.to_nat (end_ - start + 1))%nat
    /\ (0 <= start -> end_ < Z.of_nat (length (ex_context_tokens e)) ->
        ex_ans_tokens e
        = take (Z.to_nat (end_ - start + 1))
               (drop (Z.to_nat start) (ex_context_tokens e))
        /\ length (ex_ans_tokens e) = Z.to_nat (end_ - start + 1))
    /\ (0 <= start -> Z.of_nat (length (ex_context_tokens e)) <= end_ ->
        ex_ans_tokens e = drop (Z.to_nat start) (ex_context_tokens e)).
Proof.
  intros H. apply body_ans_fields in H
    as (start & end_ & _ & Hle & Hspan & Htok & Hans).
  exists start, end_. rewrite Hans, Htok.
  split; [done|]. split; [done|]. split; [|split].
  - pose proof (slice_length_le start (end_ + 1)
                  (split_by_whitespace context_line)). 
    replace (end_ - start + 1) with (end_ + 1 - start) by lia. lia.
  - intros H0 Hin. rewrite slice_nonneg by lia.
    replace (end_ + 1 - start) with (end_ - start + 1) by lia.
    split; [done|]. rewrite length_take, length_drop. lia.
  - intros H0 Hout. rewrite slice_nonneg by lia.
    apply take_ge. rewrite length_drop. lia.
Qed.

(** *** Exceptions of the loop body *)

Lemma mapM_int_raises (l : list string) (e : exn) :
  mapM Py.int l = Raise e -> e = ValueError.
Proof.
  induction l as [|w l IH]; [discriminate|]. cbn [mapM].
  destruct (Py.int w) as [z|e'] eqn:Hw; cbn [rbind].
  - destruct (mapM Py.int l) as [zs|e'']; cbn [rbind]; [discriminate|].
    intros [= <-]. by apply IH.
  - intros [= <-]. unfold Py.int in Hw.
    repeat match type of Hw with
           | context [match ?x with _ => _ end] => destruct x
           end; congruence.
Qed.

Lemma extract_spec (context_line qn_line ans_line : string) :
  match extract context_line qn_line ans_line with
  | Ok e0 =>
      intstr_to_intlist ans_line = Ok (ex_ans_span e0)
      /\ split_by_whitespace context_line <> []
      /\ (word_len <> 0%nat \/ split_by_whitespace qn_line <> [])
  | Raise e =>
      e = ValueError
      /\ (intstr_to_intlist ans_line = Raise ValueError
          \/ split_by_whitespace context_line = []
          \/ (word_len = 0%nat /\ split_by_whitespace qn_line = []))
  end.
Proof.
  destruct (intstr_to_intlist ans_line) as [span|e] eqn:Hspan.
  - destruct (split_by_whitespace context_line) as [|w ws] eqn:Hc.
    + unfold extract, sentence_to_token_ids. cbv zeta. rewrite Hspan, Hc.
      cbn [rbind]. rewrite !char_ids_of_spec, tf_of_spec.
      repeat (case_decide; cbn [rbind]); split; tauto.
    + destruct (decide (word_len = 0%nat /\ split_by_whitespace qn_line = []))
        as [[Hw Hq]|Hq].
      * unfold extract, sentence_to_token_ids. cbv zeta. rewrite Hspan, Hc, Hq.
        cbn [rbind]. rewrite !char_ids_of_spec.
        rewrite decide_False by (intros [_ ?]; done). cbn [rbind].
        rewrite decide_True by done. cbn [rbind]. split; tauto.
      * destruct (extract_ok context_line qn_line ans_line span Hspan)
          as (e0 & He0 & Hsp).
        { by rewrite Hc. }
        { destruct (decide (word_len = 0%nat)); [|by left].
          right. intros E. apply Hq. done. }
        rewrite He0, Hsp. split; [done|]. split; [done|].
        destruct (decide (word_len = 0%nat)); [|by left].
        right. intros E. apply Hq. done.
  - unfold intstr_to_intlist in Hspan. pose proof (mapM_int_raises _ _ Hspan) as ->.
    unfold extract, sentence_to_token_ids, intstr_to_intlist. cbv zeta.
    rewrite Hspan. cbn [rbind]. split; [done|]. by left.
Qed.

(** The loop body raises [ValueError] exactly when the answer line holds a
    piece that is not an integer, the context line has no token, or
    [word_len] is 0 and the question line has no token; it raises
    [AssertionError] exactly when none of these holds and the answer line
    does not hold two integers. *)
Theorem body_exceptions (context_line qn_line ans_line : string) :
  (body context_line qn_line ans_line = Raise ValueError <->
   intstr_to_intlist ans_line = Raise ValueError
   \/ split_by_whitespace context_line = []
   \/ (word_len = 0%nat /\ split_by_whitespace qn_line = []))
  /\ (body context_line qn_line ans_line = Raise AssertionError <->
      exists span,
        intstr_to_intlist ans_line = Ok span
        /\ length span <> 2%nat
        /\ split_by_whitespace context_line <> []
        /\ (word_len <> 0%nat \/ split_by_whitespace qn_line <> [])).
Proof.
  pose proof (extract_spec context_line qn_line ans_line) as Hex.
  unfold body.
  destruct (extract context_line qn_line ans_line) as [e0|e] eqn:He0;
    cbn [rbind].
  - destruct Hex as (Hspan & Hc & Hq).
    assert (Hno : ~ (intstr_to_intlist ans_line = Raise ValueError
                     \/ split_by_whitespace context_line = []
                     \/ (word_len = 0%nat /\ split_by_whitespace qn_line = []))).
    { rewrite Hspan. intros [?|[?|[? ?]]]; [done|done|]. destruct Hq; done. }
    destruct (ex_ans_span e0) as [|start [|end_ [|x xs]]] eqn:Esp.
    + split; [split; [done|tauto]|]. split; [|done].
      intros _. exists []. rewrite Hspan. repeat split; done.
    + split; [split; [done|tauto]|]. split; [|done].
      intros _. exists [start]. rewrite Hspan. repeat split; done.
    + assert (Hres : forall ex,
                 (if end_ <? start then Ok Skipped
                  else Ok (length_policy
                             (set_ans_tokens e0
                                (Py.slice start (end_ + 1) (ex_context_tokens e0)))))
                 <> Raise ex).
      { intros ex. destruct (end_ <? start); done. }
      split; (split; [intros H; by destruct (Hres _ H)|]).
      * tauto.
      * intros (span & Hspan' & Hlen & _). rewrite Hspan in Hspan'.
        injection Hspan' as <-. done.
    + split; [split; [done|tauto]|]. split; [|done].
      intros _. exists (start :: end_ :: x :: xs). rewrite Hspan.
      repeat split; done.
  - destruct Hex as [-> Hwhy]. split; [tauto|].
    split; [done|]. intros (span & Hspan & _ & Hc & Hq).
    destruct Hwhy as [H|[H|[H1 H2]]]; [congruence|done|]. destruct Hq; done.
Qed.

(** *** The fields of a kept example, from its tokens *)

Lemma combine_map_same {A B C : Type} (f : A -> B) (g : A -> C) (l : list A) :
  combine (map f l) (map g l) = map (fun x => (f x, g x)) l.
Proof. induction l as [|x l IH]; [done|]. cbn [map combine]. by rewrite IH. Qed.

Lemma take_map_comm {A B : Type} (f : A -> B) (n : nat) (l : list A) :
  firstn n (map f l) = map f (firstn n l).
Proof. apply firstn_map. Qed.

Lemma kept_fields (e : example) :
  kept e ->
  let ctx := ex_context_tokens e in
  let qn := ex_qn_tokens e in
  ctx <> []
  /\ ex_context_ids e = firstn context_len (map word_id ctx)
  /\ ex_qn_ids e = firstn question_len (map word_id qn)
  /\ ex_char_ids e = firstn context_len (map token_char_row ctx)
  /\ ex_charQ_ids e = firstn question_len (map token_char_row qn)
  /\ ex_feats e = firstn context_len (map (token_feats ctx qn) ctx)
  /\ ex_commonC_mask e = common_mask_of (ex_context_ids e)
  /\ ex_commonC_emb_indices e = common_emb_indices_of (ex_context_ids e)
  /\ ex_commonQ_mask e = common_mask_of (ex_qn_ids e)
  /\ ex_commonQ_emb_indices e = common_emb_indices_of (ex_qn_ids e).
Proof.
  intros (cl & ql & al & Hb). cbv zeta.
  apply body_Kept in Hb as (e0 & start & end_ & He0 & _ & _ & Hp).
  pose proof (extract_spec cl ql al) as Hspec. rewrite He0 in Hspec.
  destruct Hspec as (_ & Hctx & _).
  apply extract_inv in He0 as (sp & ch & chQ & tf & _ & Hch & HchQ & Htf & ->).
  rewrite char_ids_of_spec in Hch, HchQ. rewrite tf_of_spec in Htf.
  repeat case_decide; try discriminate.
  injection Hch as <-. injection HchQ as <-.
  assert (Etf : tf = map (fun w =>
                   (0.4 + 0.6 * Py.float_of_nat (freq (split_by_whitespace cl) w)
                          / Py.float_of_nat (max_freq (split_by_whitespace cl)))%float)
                  (split_by_whitespace cl)).
  { destruct (split_by_whitespace cl); [done|]. by injection Htf as <-. }
  clear Htf. subst tf.
  apply length_policy_Kept in Hp as [-> _].
  unfold sentence_to_token_ids, zip_feats, match_orig_of, common_mask_of,
    common_emb_indices_of.
  rewrite combine_map_same, map_map.
  cbn [set_ans_tokens ex_qn_ids ex_context_ids fst snd].
  destruct (Nat.ltb_spec question_len
              (length (map word_id (split_by_whitespace ql)))) as [Hq|Hq];
    destruct (Nat.ltb_spec context_len
                (length (map word_id (split_by_whitespace cl)))) as [Hc|Hc];
    rewrite length_map in Hq, Hc;
    cbn [id truncate_context truncate_question set_ans_tokens ex_context_ids
         ex_qn_ids ex_context_tokens ex_qn_tokens ex_char_ids ex_charQ_ids
         ex_feats ex_commonC_mask ex_commonC_emb_indices ex_commonQ_mask
         ex_commonQ_emb_indices];
    unfold Py.take; rewrite ?take_map_comm;
    rewrite ?(take_ge (split_by_whitespace cl)) by lia;
    rewrite ?(take_ge (split_by_whitespace ql)) by lia;
    repeat split; done.
Qed.

(** *** The arrays of a yielded batch, from its tokens *)

Lemma pad_rows_fit {A : Type} (fill : A) (token_batch : list (list A))
    (batch_pad : nat) :
  token_batch <> [] ->
  Forall (fun r => (length r <= batch_pad)%nat) token_batch ->
  pad_rows fill token_batch batch_pad
  = Ok (map (pad_to fill batch_pad) token_batch).
Proof.
  intros Hne Hle.
  destruct (pad_rows_ok fill token_batch batch_pad (or_intror Hne)) as [rows H].
  rewrite H. f_equal. by apply pad_rows_width in H as [-> _].
Qed.

Lemma length_pad_to {A : Type} (fill : A) (n : nat) (l : list A) :
  (length l <= n)%nat -> length (pad_to fill n l) = n.
Proof. intros H. unfold pad_to. rewrite length_app, repeat_length. lia. Qed.

Lemma kept_fits (e : example) :
  kept e ->
  context_aligned (Nat.min (length (ex_context_tokens e)) context_len) e
  /\ question_aligned (Nat.min (length (ex_qn_tokens e)) question_len) e.
Proof. intros (cl & ql & al & Hb). by apply (body_aligned cl ql al). Qed.

Lemma map_fits {A : Type} (f : example -> list A) (n : nat)
    (chunk : list example) :
  Forall (fun e => (length (f e) <= n)%nat) chunk ->
  Forall (fun r => (length r <= n)%nat) (map f chunk).
Proof. intros H. by apply List.Forall_map. Qed.

(** The batch a non-empty chunk of kept examples is packaged into. *)
Lemma materialize_good (chunk : list example) :
  chunk <> [] -> Forall kept chunk ->
  materialize (zip_star chunk)
  = Ok (Batch.init
          (map (pad_to PAD_ID context_len) (map ex_context_ids chunk))
          (map (map mask_of)
               (map (pad_to PAD_ID context_len) (map ex_context_ids chunk)))
          (map ex_context_tokens chunk)
          (map (pad_to PAD_ID question_len) (map ex_qn_ids chunk))
          (map (map mask_of)
               (map (pad_to PAD_ID question_len) (map ex_qn_ids chunk)))
          (map ex_qn_tokens chunk) (map ex_ans_span chunk)
          (map ex_ans_tokens chunk)
          (map (pad_to (repeat (PyInt PAD_ID) num_feats) context_len)
               (map ex_feats chunk))
          (map (pad_to (repeat PAD_ID word_len) context_len)
               (map ex_char_ids chunk))
          (map (map (map mask_of))
               (map (pad_to (repeat PAD_ID word_len) context_len)
                    (map ex_char_ids chunk)))
          (map (pad_to false question_len) (map ex_commonQ_mask chunk))
          (map (pad_to PAD_ID question_len) (map ex_commonQ_emb_indices chunk))
          (map (pad_to (repeat PAD_ID word_len) question_len)
               (map ex_charQ_ids chunk))
          (map (map (map mask_of))
               (map (pad_to (repeat PAD_ID word_len) question_len)
                    (map ex_charQ_ids chunk)))
          (map (pad_to false context_len) (map ex_commonC_mask chunk))
          (map (pad_to PAD_ID context_len) (map ex_commonC_emb_indices chunk))
          None).
Proof.
  intros Hne Hkept.
  assert (Hfit : Forall (fun e =>
             context_aligned (Nat.min (length (ex_context_tokens e)) context_len) e
             /\ question_aligned (Nat.min (length (ex_qn_tokens e)) question_len) e)
            chunk).
  { eapply Forall_impl; [exact Hkept|]. apply kept_fits. }
  assert (Hmap : forall {A : Type} (f : example -> list A), map f chunk <> []).
  { intros A f E. apply Hne. by destruct chunk. }
  unfold materialize, padded, paddedBool, padded2.
  cbn [zip_star qn_ids_batch context_ids_batch feats_batch char_ids_batch
       charQ_ids_batch commonQ_mask_batch commonQ_emb_indices_batch
       commonC_mask_batch commonC_emb_indices_batch context_tokens_batch
       qn_tokens_batch ans_span_batch ans_tokens_batch].
  rewrite !pad_rows_fit; try apply Hmap; try reflexivity;
    apply map_fits; (eapply Forall_impl; [exact Hfit|]);
    intros e [(H1 & H2 & H3 & H4 & H5) (H6 & H7 & H8 & H9)]; cbv beta; lia.
Qed.

Lemma yielded_inv (batch : Batch.t) :
  yielded batch ->
  exists chunk,
    chunk <> [] /\ Forall kept chunk
    /\ materialize (zip_star chunk) = Ok batch.
Proof. intros (chunk & (Hne & _ & Hk & _) & Hm). by exists chunk. Qed.

(** In every batch a generator yields, each row of [context_ids] is made of
    the ids of the context tokens of its example ([UNK_ID] for a word that
    is not in the vocabulary), cut at [context_len] and padded with
    [PAD_ID] to exactly [context_len], and [context_mask] marks the
    entries that are not [PAD_ID]; likewise [qn_ids] and [qn_mask] with
    [question_len]. *)
Theorem batch_ids_of_tokens (n : nat) (context_path qn_path ans_path : file)
    (g : rng) :
  Forall (fun batch =>
            Batch.context_ids batch
            = map (fun toks =>
                     pad_to PAD_ID context_len
                       (firstn context_len (map word_id toks)))
                  (Batch.context_tokens batch)
            /\ Batch.context_mask batch
               = map (map mask_of) (Batch.context_ids batch)
            /\ Batch.qn_ids batch
               = map (fun toks =>
                        pad_to PAD_ID question_len
                          (firstn question_len (map word_id toks)))
                     (Batch.qn_tokens batch)
            /\ Batch.qn_mask batch = map (map mask_of) (Batch.qn_ids batch))
         (run n (get_batch_generator context_path qn_path ans_path g)).1.
Proof.
  eapply Forall_impl; [apply run_yielded|]. intros batch Hy.
  apply yielded_inv in Hy as (chunk & Hne & Hkept & Hm).
  rewrite materialize_good in Hm by done. injection Hm as <-.
  cbn [Batch.init Batch.context_ids Batch.context_mask Batch.context_tokens
       Batch.qn_ids Batch.qn_mask Batch.qn_tokens].
  rewrite !map_map.
  repeat split; try done; apply map_ext_Forall;
    (eapply Forall_impl; [exact Hkept|]); intros e He;
    destruct (kept_fields e He) as (_ & Hc & Hq & _); cbv beta;
    congruence.
Qed.

(** In every batch a generator yields, the feature rows of an example are
    the tuples (term frequency, exact match) of its first [context_len]
    context tokens, followed by filler tuples up to [context_len]; the
    term frequency counts the occurrences among all tokens of the context
    and the exact match compares with all tokens of the question, also
    those that truncation has cut from the id arrays. *)
Theorem batch_feats_of_tokens (n : nat) (context_path qn_path ans_path : file)
    (g : rng) :
  Forall (fun batch =>
            Batch.feats batch
            = map (fun toks =>
                     pad_to (repeat (PyInt PAD_ID) num_feats) context_len
                       (firstn context_len
                          (map (token_feats toks.1 toks.2) toks.1)))
                  (combine (Batch.context_tokens batch) (Batch.qn_tokens batch)))
         (run n (get_batch_generator context_path qn_path ans_path g)).1.
Proof.
  eapply Forall_impl; [apply run_yielded|]. intros batch Hy.
  apply yielded_inv in Hy as (chunk & Hne & Hkept & Hm).
  rewrite materialize_good in Hm by done. injection Hm as <-.
  cbn [Batch.init Batch.feats Batch.context_tokens Batch.qn_tokens].
  rewrite combine_map_same, !map_map.
  apply map_ext_Forall. eapply Forall_impl; [exact Hkept|]. intros e He.
  destruct (kept_fields e He) as (_ & _ & _ & _ & _ & Hf & _). cbv beta.
  cbn [fst snd]. by rewrite Hf.
Qed.

(** *** Character masks *)

Lemma char2id_range (c : ascii) (i : Z) :
  char2id !! c = Some i -> 2 <= i <= 42.
Proof.
  intros H. apply elem_of_list_to_map_2 in H. unfold char2id in H.
  repeat (apply elem_of_cons in H as [H|H]; [injection H as _ ->; lia|]).
  by apply elem_of_nil in H.
Qed.

Lemma token_char_ids_no_pad (tok : string) :
  PAD_ID < 2 \/ 42 < PAD_ID -> UNK_ID <> PAD_ID ->
  Forall (fun x => x <> PAD_ID) (token_char_ids tok).
Proof.
  intros Hpad Hunk. unfold token_char_ids, Py.take.
  apply Forall_take, List.Forall_map, List.Forall_forall. intros c _.
  destruct (char2id !! c) as [i|] eqn:Hc; [|done].
  apply char2id_range in Hc. lia.
Qed.

Lemma row_sum_token_char_row (tok : string) :
  PAD_ID < 2 \/ 42 < PAD_ID -> UNK_ID <> PAD_ID ->
  row_sum (map mask_of (token_char_row tok))
  = Z.of_nat (Nat.min (String.length tok) word_len).
Proof.
  intros Hpad Hunk. unfold token_char_row, pad_to.
  rewrite row_sum_mask by by apply token_char_ids_no_pad.
  by rewrite length_token_char_ids.
Qed.

Lemma row_sum_filler (k : nat) : row_sum (map mask_of (repeat PAD_ID k)) = 0.
Proof. apply (row_sum_mask [] k). constructor. Qed.

Lemma char_mask_sums (L : nat) (toks : list string) :
  PAD_ID < 2 \/ 42 < PAD_ID -> UNK_ID <> PAD_ID ->
  map row_sum
      (map (map mask_of)
           (pad_to (repeat PAD_ID word_len) L
                   (firstn L (map token_char_row toks))))
  = pad_to 0 L
      (map (fun tok => Z.of_nat (Nat.min (String.length tok) word_len))
           (firstn L toks)).
Proof.
  intros Hpad Hunk. unfold pad_to.
  rewrite take_map_comm, !map_app, !map_map, !length_map.
  f_equal.
  - apply map_ext. intros tok. by apply row_sum_token_char_row.
  - induction (L - length (take L toks))%nat as [|k IH]; [done|].
    cbn [repeat map]. by rewrite IH, row_sum_filler.
Qed.

(** When [PAD_ID] is not the id of a character (the table holds the ids 2
    to 42) nor [UNK_ID], the character mask of a yielded batch counts
    characters: for each example the sums of the [char_mask] rows are
    [min(len(token), word_len)] for its first [context_len] context tokens
    and 0 for the positions after them; likewise [charQ_mask] for the
    question tokens. *)
Theorem char_mask_counts_characters :
  PAD_ID < 2 \/ 42 < PAD_ID -> UNK_ID <> PAD_ID ->
  forall n context_path qn_path ans_path g,
    Forall (fun batch =>
              map (map row_sum) (Batch.char_mask batch)
              = map (fun toks =>
                       pad_to 0 context_len
                         (map (fun tok =>
                                 Z.of_nat (Nat.min (String.length tok) word_len))
                              (firstn context_len toks)))
                    (Batch.context_tokens batch)
              /\ map (map row_sum) (Batch.charQ_mask batch)
                 = map (fun toks =>
                          pad_to 0 question_len
                            (map (fun tok =>
                                    Z.of_nat (Nat.min (String.length tok) word_len))
                                 (firstn question_len toks)))
                       (Batch.qn_tokens batch))
           (run n (get_batch_generator context_path qn_path ans_path g)).1.
Proof.
  intros Hpad Hunk n context_path qn_path ans_path g.
  eapply Forall_impl; [apply run_yielded|]. intros batch Hy.
  apply yielded_inv in Hy as (chunk & Hne & Hkept & Hm).
  rewrite materialize_good in Hm by done. injection Hm as <-.
  cbn [Batch.init Batch.char_mask Batch.charQ_mask Batch.context_tokens
       Batch.qn_tokens].
  rewrite !map_map.
  split; apply map_ext_Forall; (eapply Forall_impl; [exact Hkept|]);
    intros e He;
    destruct (kept_fields e He) as (_ & _ & _ & Hc & Hq & _); cbv beta.
  - rewrite Hc. by apply char_mask_sums.
  - rewrite Hq. by apply char_mask_sums.
Qed.

(** *** The shared-vocabulary mask and indices *)

Lemma Forall3_map_same {A B C D : Type} (P : B -> C -> D -> Prop)
    (f : A -> B) (g : A -> C) (h : A -> D) (l : list A) :
  Forall (fun x => P (f x) (g x) (h x)) l ->
  Forall3 P (map f l) (map g l) (map h l).
Proof. induction 1; constructor; done. Qed.

Lemma common_row_agrees (L : nat) (ids : list Z) :
  Forall3 (fun id (m : bool) idx =>
             if m then mcids_dict !! id = Some idx
             else idx = 0 \/ idx = PAD_ID)
          (pad_to PAD_ID L ids)
          (pad_to false L (common_mask_of ids))
          (pad_to PAD_ID L (common_emb_indices_of ids)).
Proof.
  unfold pad_to, common_mask_of, common_emb_indices_of.
  rewrite !length_map. apply Forall3_app.
  - induction ids as [|id ids IH]; [constructor|].
    cbn [map]. constructor; [|exact IH].
    destruct (mcids_dict !! id) as [x|] eqn:Hx.
    + rewrite bool_decide_eq_true_2 by by eexists. done.
    + rewrite bool_decide_eq_false_2 by (intros [? ?]; done). by left.
  - induction (L - length ids)%nat as [|k IH]; constructor; [by right|done].
Qed.

(** In every batch a generator yields the three arrays agree position by
    position: where [commonC_mask] is true the context id has an entry in
    [mcids_dict] and [commonC_emb_indices] holds it; where the mask is
    false the index is 0 (a word without entry) or [PAD_ID] (padding).
    The same holds of [commonQ_mask], [qn_ids] and
    [commonQ_emb_indices]. *)
Theorem common_indices_agree_with_mask (n : nat)
    (context_path qn_path ans_path : file) (g : rng) :
  Forall (fun batch =>
            Forall3 (Forall3 (fun id (m : bool) idx =>
                                if m then mcids_dict !! id = Some idx
                                else idx = 0 \/ idx = PAD_ID))
                    (Batch.context_ids batch) (Batch.commonC_mask batch)
                    (Batch.commonC_emb_indices batch)
            /\ Forall3 (Forall3 (fun id (m : bool) idx =>
                                   if m then mcids_dict !! id = Some idx
                                   else idx = 0 \/ idx = PAD_ID))
                       (Batch.qn_ids batch) (Batch.commonQ_mask batch)
                       (Batch.commonQ_emb_indices batch))
         (run n (get_batch_generator context_path qn_path ans_path g)).1.
Proof.
  eapply Forall_impl; [apply run_yielded|]. intros batch Hy.
  apply yielded_inv in Hy as (chunk & Hne & Hkept & Hm).
  rewrite materialize_good in Hm by done. injection Hm as <-.
  cbn [Batch.init Batch.context_ids Batch.commonC_mask
       Batch.commonC_emb_indices Batch.qn_ids Batch.commonQ_mask
       Batch.commonQ_emb_indices].
  rewrite !map_map.
  split; apply Forall3_map_same; (eapply Forall_impl; [exact Hkept|]);
    intros e He;
    destruct (kept_fields e He)
      as (_ & _ & _ & _ & _ & _ & Hcm & Hce & Hqm & Hqe); cbv beta.
  - rewrite Hcm, Hce. apply common_row_agrees.
  - rewrite Hqm, Hqe. apply common_row_agrees.
Qed.

(** *** The shapes of a yielded batch *)

Lemma shape2_pad {A : Type} (fill : A) (f : example -> list A) (L : nat)
    (chunk : list example) :
  Forall (fun e => (length (f e) <= L)%nat) chunk ->
  shape2 L (map (pad_to fill L) (map f chunk)).
Proof.
  intros H. unfold shape2. rewrite map_map. apply List.Forall_map.
  eapply Forall_impl; [exact H|]. intros e He. by apply length_pad_to.
Qed.

Lemma shape2_map {A B : Type} (f : A -> B) (L : nat) (a : list (list A)) :
  shape2 L a -> shape2 L (map (map f) a).
Proof.
  intros H. unfold shape2 in *. apply List.Forall_map.
  eapply Forall_impl; [exact H|]. intros r Hr. cbv beta. by rewrite length_map.
Qed.

Lemma shape3_pad {A : Type} (fill : A) (f : example -> list (list A))
    (L d : nat) (chunk : list example) :
  Forall (fun e => (length (f e) <= L)%nat
                   /\ Forall (fun x => length x = d) (f e)) chunk ->
  shape3 L d (map (pad_to (repeat fill d) L) (map f chunk)).
Proof.
  intros H. unfold shape3. rewrite map_map. apply List.Forall_map.
  eapply Forall_impl; [exact H|]. intros e [Hlen Hrows]. cbv beta.
  split; [by apply length_pad_to|]. unfold pad_to.
  apply Forall_app. split; [done|].
  apply List.Forall_forall. intros x Hx. apply repeat_spec in Hx as ->.
  apply repeat_length.
Qed.

Lemma shape3_map {A B : Type} (f : A -> B) (L d : nat)
    (a : list (list (list A))) :
  shape3 L d a -> shape3 L d (map (map (map f)) a).
Proof.
  intros H. unfold shape3 in *. apply List.Forall_map.
  eapply Forall_impl; [exact H|]. intros r [Hr Hx]. cbv beta.
  rewrite length_map. split; [done|]. apply List.Forall_map.
  eapply Forall_impl; [exact Hx|]. intros x Hlen. cbv beta.
  by rewrite length_map.
Qed.

Lemma length_token_char_row (tok : string) :
  length (token_char_row tok) = word_len.
Proof.
  unfold token_char_row. apply length_pad_to.
  rewrite length_token_char_ids. lia.
Qed.

Lemma kept_inner_shapes (e : example) :
  kept e ->
  Forall (fun x => length x = word_len) (ex_char_ids e)
  /\ Forall (fun x => length x = word_len) (ex_charQ_ids e)
  /\ Forall (fun x => length x = 2%nat) (ex_feats e)
  /\ length (ex_ans_span e) = 2%nat.
Proof.
  intros He. destruct (kept_fields e He) as (_ & _ & _ & -> & -> & -> & _).
  destruct He as (cl & ql & al & Hb).
  apply body_ans_fields in Hb as (start & end_ & _ & _ & -> & _).
  repeat split; try done; apply Forall_take, List.Forall_map,
    List.Forall_forall; intros tok _; try apply length_token_char_row; done.
Qed.

(** Every array of a yielded batch is rectangular: the id, mask and
    shared-vocabulary arrays of the context have rows of [context_len]
    entries and those of the question rows of [question_len] entries; the
    character arrays have [context_len] (or [question_len]) rows of
    [word_len] entries per example; [feats] has [context_len] rows per
    example, of two entries each when [num_feats] is 2; every span has two
    entries. *)
Theorem batch_shapes (n : nat) (context_path qn_path ans_path : file) (g : rng) :
  Forall (fun batch =>
            (shape2 context_len (Batch.context_ids batch)
             /\ shape2 context_len (Batch.context_mask batch)
             /\ shape2 context_len (Batch.commonC_mask batch)
             /\ shape2 context_len (Batch.commonC_emb_indices batch))
            /\ (shape2 question_len (Batch.qn_ids batch)
                /\ shape2 question_len (Batch.qn_mask batch)
                /\ shape2 question_len (Batch.commonQ_mask batch)
                /\ shape2 question_len (Batch.commonQ_emb_indices batch))
            /\ (shape3 context_len word_len (Batch.char_ids batch)
                /\ shape3 context_len word_len (Batch.char_mask batch)
                /\ shape3 question_len word_len (Batch.charQ_ids batch)
                /\ shape3 question_len word_len (Batch.charQ_mask batch))
            /\ shape2 context_len (Batch.feats batch)
            /\ (num_feats = 2%nat -> shape3 context_len 2 (Batch.feats batch))
            /\ shape2 2 (Batch.ans_span batch))
         (run n (get_batch_generator context_path qn_path ans_path g)).1.
Proof.
  eapply Forall_impl; [apply run_yielded|]. intros batch Hy.
  apply yielded_inv in Hy as (chunk & Hne & Hkept & Hm).
  rewrite materialize_good in Hm by done. injection Hm as <-.
  cbn [Batch.init Batch.context_ids Batch.context_mask Batch.qn_ids
       Batch.qn_mask Batch.feats Batch.char_ids Batch.char_mask
       Batch.charQ_ids Batch.charQ_mask Batch.commonQ_mask
       Batch.commonQ_emb_indices Batch.commonC_mask Batch.commonC_emb_indices
       Batch.ans_span].
  assert (Hfit : Forall (fun e =>
             (context_aligned (Nat.min (length (ex_context_tokens e)) context_len) e
              /\ question_aligned (Nat.min (length (ex_qn_tokens e)) question_len) e)
             /\ Forall (fun x => length x = word_len) (ex_char_ids e)
             /\ Forall (fun x => length x = word_len) (ex_charQ_ids e)
             /\ Forall (fun x => length x = 2%nat) (ex_feats e)
             /\ length (ex_ans_span e) = 2%nat) chunk).
  { eapply Forall_impl; [exact Hkept|]. intros e He.
    split; [by apply kept_fits|by apply kept_inner_shapes]. }
  assert (Hc : forall {A : Type} (fill : A) (f : example -> list A),
             (forall e n, context_aligned n e -> length (f e) = n) ->
             shape2 context_len (map (pad_to fill context_len) (map f chunk))).
  { intros A fill f Hf. apply shape2_pad. eapply Forall_impl; [exact Hfit|].
    intros e [[Hal _] _]. cbv beta. rewrite (Hf _ _ Hal). lia. }
  assert (Hq : forall {A : Type} (fill : A) (f : example -> list A),
             (forall e n, question_aligned n e -> length (f e) = n) ->
             shape2 question_len (map (pad_to fill question_len) (map f chunk))).
  { intros A fill f Hf. apply shape2_pad. eapply Forall_impl; [exact Hfit|].
    intros e [[_ Hal] _]. cbv beta. rewrite (Hf _ _ Hal). lia. }
  assert (Hch : shape3 context_len word_len
                  (map (pad_to (repeat PAD_ID word_len) context_len)
                       (map ex_char_ids chunk))).
  { apply shape3_pad. eapply Forall_impl; [exact Hfit|].
    intros e [[(_ & _ & Hal & _) _] (H1 & _)]. cbv beta. split; [lia|done]. }
  assert (HchQ : shape3 question_len word_len
                   (map (pad_to (repeat PAD_ID word_len) question_len)
                        (map ex_charQ_ids chunk))).
  { apply shape3_pad. eapply Forall_impl; [exact Hfit|].
    intros e [[_ (_ & _ & _ & Hal)] (_ & H1 & _)]. cbv beta. split; [lia|done]. }
  split; [|split; [|split; [|split; [|split]]]].
  - repeat split; try apply shape2_map; apply Hc; by intros e k (? & ? & ? & ? & ?).
  - repeat split; try apply shape2_map; apply Hq; by intros e k (? & ? & ? & ?).
  - repeat split; try apply shape3_map; done.
  - apply Hc. by intros e k (? & ? & ? & ? & ?).
  - intros Hnf. rewrite Hnf. apply shape3_pad.
    eapply Forall_impl; [exact Hfit|].
    intros e [[(_ & Hal & _) _] (_ & _ & H1 & _)]. cbv beta. split; [lia|done].
  - unfold shape2. apply List.Forall_map. eapply Forall_impl; [exact Hfit|].
    by intros e (_ & _ & _ & _ & H).
Qed.

(** *** A stream that fits in one refill *)

Lemma truthy_line (l : string) : Py.truthy (line l) = true.
Proof. by destruct l. Qed.

Lemma kept_examples_cons (c q a : string)
    (rest : list (string * string * string)) (K : list example) :
  kept_examples ((c, q, a) :: rest) = Ok K ->
  exists o es,
    body (line c) (line q) (line a) = Ok o
    /\ kept_examples rest = Ok es
    /\ K = match o with Skipped => es | Kept e => e :: es end.
Proof.
  cbn [kept_examples]. intros H.
  apply rbind_Ok in H as (o & Ho & H). apply rbind_Ok in H as (es & Hes & H).
  injection H as <-. by exists o, es.
Qed.

(** While the cap is not reached the loop pools the kept examples of the
    line-triples, in the order of the lines, up to the end of the shortest
    file. *)
Lemma next_pass_all (cf : file) :
  forall (qf af : file) (examples K : list example),
    kept_examples (zip3 cf qf af) = Ok K ->
    (length examples + length K < batch_size * 160)%nat ->
    exists fs',
      next_pass cf qf af examples = Ok (examples ++ K, fs') /\ exhausted fs'.
Proof.
  induction cf as [|c cf IH]; intros qf af examples K HK Hcap.
  - cbn [zip3 kept_examples] in HK. injection HK as <-. rewrite app_nil_r.
    destruct (next_pass_exhausted [] qf af examples) as [H1 H2]; [by left|].
    eauto.
  - destruct qf as [|q qf].
    { cbn [zip3 kept_examples] in HK. injection HK as <-. rewrite app_nil_r.
      destruct (next_pass_exhausted (c :: cf) [] af examples) as [H1 H2];
        [by right; left|]. eauto. }
    destruct af as [|a af].
    { cbn [zip3 kept_examples] in HK. injection HK as <-. rewrite app_nil_r.
      destruct (next_pass_exhausted (c :: cf) (q :: qf) [] examples)
        as [H1 H2]; [by right; right|]. eauto. }
    cbn [zip3] in HK.
    apply kept_examples_cons in HK as (o & es & Ho & Hes & ->).
    rewrite next_pass_eq. cbn [readline fst snd].
    change (String.append c Py.nl) with (line c).
    change (String.append q Py.nl) with (line q).
    change (String.append a Py.nl) with (line a).
    rewrite read_loop_unfold, !truthy_line, Ho. cbn [andb rbind].
    destruct o as [|e].
    + by apply IH.
    + cbn [length] in Hcap.
      rewrite (proj2 (Nat.eqb_neq (length (examples ++ [e])) _))
        by (rewrite length_app; cbn [length]; lia).
      destruct (IH qf af (examples ++ [e]) es Hes) as (fs' & H1 & H2).
      { rewrite length_app. cbn [length]. lia. }
      exists fs'. split; [|done]. by rewrite H1, <- app_assoc.
Qed.

Lemma refill_batches_eq (batches : list raw_batch) (fs : files) (g : rng)
    (pool : list example) (fs' : files) :
  batch_size <> 0%nat ->
  next_pass (context_file fs) (qn_file fs) (ans_file fs) [] = Ok (pool, fs') ->
  refill_batches batches fs g
  = Ok ((shuffle (batches ++ map zip_star
                                 (slices batch_size (sorted qn_length pool))) g).1,
        fs',
        (shuffle (batches ++ map zip_star
                                 (slices batch_size (sorted qn_length pool))) g).2).
Proof.
  intros Hsize. unfold refill_batches, next_pass.
  destruct (readline (context_file fs)), (readline (qn_file fs)),
    (readline (ans_file fs)).
  intros ->. cbn [rbind]. unfold xrange.
  rewrite (proj2 (Nat.eqb_neq _ _) Hsize). cbn [rbind]. rewrite map_map.
  unfold qn_length, slices. rewrite map_map.
  by destruct (shuffle _ g).
Qed.

Lemma refill_exhausted_ok (fs : files) (g : rng) :
  batch_size <> 0%nat -> exhausted fs ->
  exists fs', refill_batches [] fs g = Ok ([], fs', g) /\ exhausted fs'.
Proof.
  intros Hsize Hex. destruct fs as [cf qf af].
  destruct (next_pass_exhausted cf qf af [] Hex) as [Hnp Hex'].
  eexists. split; [|exact Hex'].
  rewrite (refill_batches_eq [] (Files cf qf af) g [] _ Hsize Hnp).
  cbn [sorted foldr]. rewrite slices_nil by done. reflexivity.
Qed.

(** *** The pool cap *)

(** With [batch_size] at least 1, a reading loop that ends without
    raising has pooled at most [batch_size * 160] examples, and the
    refill then succeeds: it sorts and slices exactly this pool and
    shuffles the slices in with the pending batches. *)
Theorem pool_cap (batches : list raw_batch) (fs : files) (g : rng)
    (pool : list example) (fs' : files) :
  batch_size <> 0%nat ->
  next_pass (context_file fs) (qn_file fs) (ans_file fs) [] = Ok (pool, fs') ->
  (length pool <= batch_size * 160)%nat
  /\ refill_batches batches fs g
     = Ok ((shuffle (batches ++ map zip_star
                                  (slices batch_size (sorted qn_length pool))) g).1,
           fs',
           (shuffle (batches ++ map zip_star
                                  (slices batch_size (sorted qn_length pool))) g).2).
Proof.
  intros Hsize Hpool. split.
  - rewrite next_pass_eq in Hpool.
    apply read_loop_cap in Hpool; [done|cbn [length]; lia].
  - by apply refill_batches_eq.
Qed.

(** With [batch_size = 0] the cap is 0 and the test [len(examples) == 0]
    after an append never holds: the loop goes on to the end of the
    shortest file, whatever the number of examples. *)
Lemma next_pass_zero (cf : file) :
  batch_size = 0%nat ->
  forall (qf af : file) (examples : list example),
    match kept_examples (zip3 cf qf af) with
    | Ok K =>
        exists fs',
          next_pass cf qf af examples = Ok (examples ++ K, fs')
          /\ exhausted fs'
    | Raise e => next_pass cf qf af examples = Raise e
    end.
Proof.
  intros Hz. induction cf as [|c cf IH]; intros qf af examples.
  - cbn [zip3 kept_examples]. rewrite app_nil_r.
    destruct (next_pass_exhausted [] qf af examples) as [H1 H2]; [by left|].
    eauto.
  - destruct qf as [|q qf].
    { cbn [zip3 kept_examples]. rewrite app_nil_r.
      destruct (next_pass_exhausted (c :: cf) [] af examples) as [H1 H2];
        [by right; left|]. eauto. }
    destruct af as [|a af].
    { cbn [zip3 kept_examples]. rewrite app_nil_r.
      destruct (next_pass_exhausted (c :: cf) (q :: qf) [] examples)
        as [H1 H2]; [by right; right|]. eauto. }
    cbn [zip3 kept_examples].
    rewrite next_pass_eq. cbn [readline fst snd].
    change (String.append c Py.nl) with (line c).
    change (String.append q Py.nl) with (line q).
    change (String.append a Py.nl) with (line a).
    rewrite read_loop_unfold, !truthy_line. cbn [andb].
    destruct (body (line c) (line q) (line a)) as [[|e]|err]; cbn [rbind];
      [| |done].
    + specialize (IH qf af examples).
      by destruct (kept_examples (zip3 cf qf af)) as [es|err].
    + rewrite (proj2 (Nat.eqb_neq (length (examples ++ [e])) _))
        by (rewrite Hz, length_app; cbn [length]; lia).
      specialize (IH qf af (examples ++ [e])).
      destruct (kept_examples (zip3 cf qf af)) as [es|err]; cbn [rbind];
        [|done].
      destruct IH as (fs' & H1 & H2). exists fs'. split; [|done].
      by rewrite H1, <- app_assoc.
Qed.

Lemma refill_batches_zero (batches : list raw_batch) (fs : files) (g : rng) :
  batch_size = 0%nat ->
  refill_batches batches fs g
  = match next_pass (context_file fs) (qn_file fs) (ans_file fs) [] with
    | Ok _ => Raise ValueError
    | Raise e => Raise e
    end.
Proof.
  intros Hz. unfold refill_batches, next_pass.
  destruct (readline (context_file fs)), (readline (qn_file fs)),
    (readline (ans_file fs)).
  destruct (read_loop _ _ _ _ _ _ _) as [[pool fs']|e]; cbn [rbind]; [|done].
  unfold xrange. by rewrite Hz.
Qed.

(** With [batch_size = 0] a refill always raises, and the cap stops
    nothing.  When no line-triple up to the end of the shortest file
    raises, the loop pools all their kept examples, however many, reads
    the files to the end of the shortest one, and the refill ends in the
    [ValueError] of [xrange] for its step 0.  When a line-triple raises,
    the refill raises that exception. *)
Theorem refill_zero_batch_size (batches : list raw_batch) (fs : files) (g : rng) :
  batch_size = 0%nat ->
  (forall K,
      kept_examples (zip3 (context_file fs) (qn_file fs) (ans_file fs)) = Ok K ->
      (exists fs',
          next_pass (context_file fs) (qn_file fs) (ans_file fs) [] = Ok (K, fs')
          /\ exhausted fs')
      /\ refill_batches batches fs g = Raise ValueError)
  /\ (forall e,
         kept_examples (zip3 (context_file fs) (qn_file fs) (ans_file fs))
         = Raise e ->
         refill_batches batches fs g = Raise e).
Proof.
  intros Hz.
  pose proof (next_pass_zero (context_file fs) Hz (qn_file fs) (ans_file fs) [])
    as Hloop.
  rewrite (refill_batches_zero batches fs g Hz).
  split.
  - intros K HK. rewrite HK in Hloop. cbn [app] in Hloop.
    destruct Hloop as (fs' & Hpool & Hex). rewrite Hpool. eauto.
  - intros e He. rewrite He in Hloop. by rewrite Hloop.
Qed.

Lemma pending_materialize (b : raw_batch) :
  pending b -> exists batch, materialize b = Ok batch.
Proof.
  intros (chunk & (Hne & _ & Hkept & _) & ->).
  rewrite materialize_good by done. eauto.
Qed.

(** After the end of a file the pending batches are yielded one by one,
    and then the generator returns. *)
Lemma run_drain (bs : list raw_batch) :
  forall (fs : files) (g : rng) (n : nat),
    batch_size <> 0%nat -> exhausted fs -> Forall pending bs ->
    (length bs < n)%nat ->
    exists batches,
      run n (GenState fs bs g) = (batches, Exhausted)
      /\ Forall2 (fun b batch => materialize b = Ok batch) bs batches.
Proof.
  induction bs as [|b bs IH]; intros fs g n Hsize Hex Hpend Hn.
  - destruct n as [|n]; [cbn in Hn; lia|]. cbn [run].
    destruct (refill_exhausted_ok fs g Hsize Hex) as (fs' & Hre & _).
    unfold gen_next. cbn [g_batches g_files g_rng]. rewrite Hre.
    cbn [rbind g_batches]. exists []. split; [done|constructor].
  - destruct n as [|n]; [cbn in Hn; lia|]. cbn [run].
    apply Forall_cons in Hpend as [Hb Hpend].
    destruct (pending_materialize b Hb) as [batch Hm].
    rewrite (gen_next_pop (GenState fs (b :: bs) g) b bs eq_refl), Hm.
    cbn [rbind g_files g_rng].
    destruct (IH fs g n Hsize Hex Hpend) as (batches & Hrun & Hall).
    { cbn [length] in Hn. lia. }
    rewrite Hrun. exists (batch :: batches). split; [done|by constructor].
Qed.

Lemma run_after_refill (cf qf af : file) (g : rng)
    (bs : list raw_batch) (fs' : files) (g' : rng) (n : nat) :
  batch_size <> 0%nat -> exhausted fs' ->
  refill_batches [] (Files cf qf af) g = Ok (bs, fs', g') ->
  run n (get_batch_generator cf qf af g) = run n (GenState fs' bs g').
Proof.
  intros Hsize Hex Hre. destruct n as [|n]; [done|]. cbn [run].
  assert (E : gen_next (get_batch_generator cf qf af g)
              = gen_next (GenState fs' bs g')).
  { unfold gen_next at 1. cbn [get_batch_generator g_batches g_files g_rng].
    rewrite Hre. cbn [rbind g_batches g_files g_rng].
    destruct bs as [|b bs].
    - destruct (refill_exhausted_ok fs' g' Hsize Hex) as (fs'' & Hre' & _).
      unfold gen_next. cbn [g_batches g_files g_rng]. rewrite Hre'. done.
    - by rewrite (gen_next_pop (GenState fs' (b :: bs) g') b bs eq_refl). }
  by rewrite E.
Qed.

Lemma Permutation_concat_lists {A : Type} (l l' : list (list A)) :
  Permutation l l' -> Permutation (concat l) (concat l').
Proof.
  induction 1 as [|x l l' _ IH|x y l|l l' l'' _ IH1 _ IH2]; cbn [concat].
  - done.
  - by rewrite IH.
  - rewrite !app_assoc. apply Permutation_app_tail, Permutation_app_comm.
  - by rewrite IH1.
Qed.

Lemma raw_rows_zip_star (chunk : list example) :
  raw_rows (zip_star chunk) = map example_row chunk.
Proof.
  unfold raw_rows, example_row.
  cbn [zip_star context_tokens_batch qn_tokens_batch ans_span_batch
       ans_tokens_batch].
  by rewrite !combine_map_same.
Qed.

(** When the kept examples of the line-triples are fewer than
    [batch_size * 160], a generator asked often enough yields
    [ceil(k / batch_size)] batches for the [k] kept examples and then
    returns; the rows of these batches (context tokens, question tokens,
    span and answer tokens of each example, kept together) are the kept
    examples, each exactly once, in some order. *)
Theorem stream_yields_each_example_once (cf qf af : file) (g : rng)
    (K : list example) (n : nat) :
  batch_size <> 0%nat ->
  kept_examples (zip3 cf qf af) = Ok K ->
  (length K < batch_size * 160)%nat ->
  (length K < n)%nat ->
  exists batches,
    run n (get_batch_generator cf qf af g) = (batches, Exhausted)
    /\ length batches = ((length K + batch_size - 1) / batch_size)%nat
    /\ Permutation (concat (map batch_rows batches)) (map example_row K).
Proof.
  intros Hsize HK Hcap Hn.
  destruct (next_pass_all cf qf af [] K HK) as (fs' & Hpool & Hex);
    [cbn [length]; lia|].
  cbn [app] in Hpool.
  pose proof (refill_batches_eq [] (Files cf qf af) g K fs' Hsize Hpool) as Hre.
  cbn [app] in Hre.
  set (chunks := slices batch_size (sorted qn_length K)) in *.
  set (sh := shuffle (map zip_star chunks) g) in *.
  pose proof (shuffle_Permutation (map zip_star chunks) g) as Hperm.
  fold sh in Hperm.
  assert (Hlen : length sh.1 = ((length K + batch_size - 1) / batch_size)%nat).
  { rewrite (Permutation_length Hperm), length_map. unfold chunks.
    rewrite length_slices.
    by rewrite <- (Permutation_length (sorted_Permutation qn_length K)). }
  assert (Hle : (length sh.1 <= length K)%nat).
  { rewrite (Permutation_length Hperm), length_map. unfold chunks.
    rewrite (Permutation_length (sorted_Permutation qn_length K)).
    by apply length_slices_le. }
  rewrite (run_after_refill cf qf af g _ _ _ n Hsize Hex Hre).
  destruct (run_drain sh.1 fs' sh.2 n Hsize Hex) as (batches & Hrun & Hall).
  { apply (refill_pending [] (Files cf qf af) g _ _ _ Hre). constructor. }
  { lia. }
  exists batches. split; [done|]. split.
  { by rewrite <- (Forall2_length _ _ _ Hall). }
  assert (Hrows : map batch_rows batches = map raw_rows sh.1).
  { clear -Hall. induction Hall as [|b batch bs batches Hm _ IH]; [done|].
    cbn [map]. rewrite IH. f_equal.
    apply materialize_frame in Hm as (H1 & H2 & H3 & H4).
    unfold batch_rows, raw_rows. by rewrite H1, H2, H3, H4. }
  rewrite Hrows.
  rewrite (Permutation_concat_lists _ _ (Permutation_map raw_rows Hperm)).
  rewrite map_map.
  rewrite (map_ext _ _ raw_rows_zip_star chunks).
  rewrite <- concat_map. unfold chunks. rewrite concat_slices by done.
  apply Permutation_map. symmetry. apply sorted_Permutation.
Qed.

End Batcher.

(** ** The answer span *)

(** C10.  An assembled example holds the two integers of the answer line
    as [ans_span], with [start <= end], and [ans_tokens] is the slice
    [context_tokens[start : end+1]] of the whole token list of the context
    line; truncation changes neither, and the materializer copies both into
    the batch.  So a yielded batch can hold a span that lies beyond the
    truncated context: with [context_len = 2] the context [a b c d e] and
    the answer line [3 4] give a row of 2 context ids and the span (3, 4). *)
Theorem ans_span_not_truncated :
  (forall PAD_ID UNK_ID word2id mcids_dict context_len question_len word_len
          discard_long context_line qn_line ans_line e,
      body PAD_ID UNK_ID word2id mcids_dict context_len question_len word_len
        discard_long context_line qn_line ans_line = Ok (Kept e) ->
      exists start end_,
        intstr_to_intlist ans_line = Ok [start; end_]
        /\ start <= end_
        /\ ex_ans_span e = [start; end_]
        /\ ex_context_tokens e = split_by_whitespace context_line
        /\ ex_ans_tokens e
           = Py.slice start (end_ + 1) (split_by_whitespace context_line))
  /\ (forall PAD_ID context_len question_len word_len num_feats b batch,
         materialize PAD_ID context_len question_len word_len num_feats b
         = Ok batch ->
         Batch.ans_span batch = ans_span_batch b
         /\ Batch.ans_tokens batch = ans_tokens_batch b)
  /\ (exists batch,
         run 0 1 ∅ ∅ 2 2 5 3 2 false 1
           (get_batch_generator ["a b c d e"] ["q"] ["3 4"] [])
         = ([batch], Suspended)
         /\ Batch.context_tokens batch = [["a"; "b"; "c"; "d"; "e"]]
         /\ Batch.context_ids batch = [[1; 1]]
         /\ Batch.ans_span batch = [[3; 4]]
         /\ Batch.ans_tokens batch = [["d"; "e"]]).
Proof.
  split; [|split].
  - intros. by eapply body_ans_fields.
  - intros PAD_ID context_len question_len word_len num_feats b batch H.
    apply materialize_frame in H as (H1 & H2 & _). done.
  - eexists. split; [vm_compute; reflexivity|]. vm_compute. done.
Qed.

(** ** Concrete runs *)

Example split_ex :
  split_by_whitespace (line "  the cat sat ") = ["the"; "cat"; "sat"].
Proof. reflexivity. Qed.

Example intlist_ex : intstr_to_intlist (line "5 -2") = Ok [5; -2].
Proof. reflexivity. Qed.

Example exact_match_ex :
  match_orig_of ["the"; "cat"; "sat"] ["the"; "cat"; "the"] = [0; 1; 0].
Proof. reflexivity. Qed.

Example shuffle_ex : shuffle [1; 2; 3; 4; 5] [0; 0; 0; 0]%nat = ([2; 3; 4; 5; 1], []).
Proof. reflexivity. Qed.

Example stream_ex :
  map Batch.qn_tokens
    (run 0 1 demo_word2id demo_mcids 2 3 2 2 2 false 5
       (get_batch_generator ["a b c"; "a b"; "c"; "d e f g"]
          ["q"; "q r s"; "q r"; "z"] ["0 1"; "0 0"; "0 0"; "1 0"] [1]%nat)).1
  = [[["q"]; ["q"; "r"; "s"]]; [["q"; "r"]]].
Proof. vm_compute. reflexivity. Qed.

(** The worked example of C5: ["a"; "a"; "b"] yields [1.0; 1.0; 0.7]. *)
Lemma tf_formula_witness :
  tf_of ["a"; "a"; "b"] = Ok [1.0; 1.0; 0.7]%float.
Proof.
  exact (eq_trans (tf_formula ["a"; "a"; "b"] ltac:(discriminate)) eq_refl).
Defined.

(** C1 fails as stated: with [context_len = 1] and no [discard_long] the
    context [a b] keeps its two tokens and one id. *)
Lemma truncated_ids_shorter_than_tokens :
  exists e,
    body 0 1 demo_word2id demo_mcids 1 5 2 false (line "a b") (line "q") (line "0 0")
    = Ok (Kept e)
    /\ length (ex_context_tokens e) = 2%nat
    /\ length (ex_context_ids e) = 1%nat
    /\ length (ex_feats e) = 1%nat.
Proof. eexists. split; [vm_compute; reflexivity|]. vm_compute. done. Qed.

Lemma aligned_fields_witness :
  exists e,
    body 0 1 demo_word2id demo_mcids 1 5 2 false (line "a b") (line "q") (line "0 0")
    = Ok (Kept e)
    /\ (context_aligned (Nat.min (length (ex_context_tokens e)) 1) e
        /\ question_aligned (Nat.min (length (ex_qn_tokens e)) 5) e
        /\ (false = true ->
            context_aligned (length (ex_context_tokens e)) e
            /\ question_aligned (length (ex_qn_tokens e)) e)).
Proof.
  eexists. split; [vm_compute; reflexivity|].
  apply (aligned_fields_share_capped_length 0 1 demo_word2id demo_mcids 1 5 2
           false (line "a b") (line "q") (line "0 0")).
  vm_compute. reflexivity.
Defined.

(** C2 fails as stated: three examples in batches of two, and a shuffle
    that exchanges the two pending batches; the batch of one example is
    yielded first and the full batch last. *)
Lemma short_batch_yielded_first :
  map Batch.batch_size
    (run 0 1 demo_word2id demo_mcids 2 5 5 3 2 false 5
       (get_batch_generator ["a"; "the cat"; "a cat"] ["q"; "q r"; "q r s"]
          ["0 0"; "0 1"; "1 1"] [0]%nat)).1
  = [1; 2]%nat
  /\ (run 0 1 demo_word2id demo_mcids 2 5 5 3 2 false 5
        (get_batch_generator ["a"; "the cat"; "a cat"] ["q"; "q r"; "q r s"]
           ["0 0"; "0 1"; "1 1"] [0]%nat)).2
     = Exhausted.
Proof. split; vm_compute; reflexivity. Qed.

Example batch_sizes_ex :
  count_short 2
    (map Batch.context_tokens
       (run 0 1 demo_word2id demo_mcids 2 5 5 3 2 false 5
          (get_batch_generator ["a"; "the cat"; "a cat"] ["q"; "q r"; "q r s"]
             ["0 0"; "0 1"; "1 1"] [0]%nat)).1)
  = 1%nat.
Proof. vm_compute. reflexivity. Qed.

Lemma over_length_witness :
  exists e0 e,
    extract 0 1 demo_word2id demo_mcids 3 (line "the cat sat") (line "a cat") (line "0 1")
    = Ok e0
    /\ body 0 1 demo_word2id demo_mcids 2 1 3 false
         (line "the cat sat") (line "a cat") (line "0 1")
       = Ok (Kept e)
    /\ ex_context_ids e = [5; 6]
    /\ ex_context_ids e = firstn 2 (ex_context_ids e0)
    /\ ex_feats e = firstn 2 (ex_feats e0)
    /\ ex_qn_ids e = firstn 1 (ex_qn_ids e0)
    /\ ex_charQ_ids e = firstn 1 (ex_charQ_ids e0).
Proof.
  eexists. eexists.
  split; [vm_compute; reflexivity|]. split; [vm_compute; reflexivity|].
  split; [reflexivity|].
  match goal with
  | |- ex_context_ids ?e = firstn 2 (ex_context_ids ?e0) /\ _ =>
      assert (He0 : extract 0 1 demo_word2id demo_mcids 3
                      (line "the cat sat") (line "a cat") (line "0 1") = Ok e0)
        by (vm_compute; reflexivity);
      assert (Hb : body 0 1 demo_word2id demo_mcids 2 1 3 false
                     (line "the cat sat") (line "a cat") (line "0 1")
                   = Ok (Kept e))
        by (vm_compute; reflexivity);
      assert (Hover : (1 < length (ex_qn_ids e0))%nat
                      \/ (2 < length (ex_context_ids e0))%nat)
        by (left; vm_compute; lia);
      destruct (over_length_discarded_or_truncated 0 1 demo_word2id demo_mcids
                  2 2 1 3 false (line "the cat sat") (line "a cat") (line "0 1")
                  [] [] [] [] e0 He0 Hover) as [_ Htrunc];
      destruct (Htrunc eq_refl) as [_ Hall];
      destruct (Hall e Hb) as [Hq Hc]
  end.
  destruct (Hq ltac:(vm_compute; lia)) as (Hq1 & _ & _ & Hq4 & _).
  destruct (Hc ltac:(vm_compute; lia)) as (Hc1 & Hc2 & _).
  repeat split; assumption.
Defined.

(** C6 fails as stated: the features are computed before the span is looked
    at, and the term frequency of a context without tokens raises. *)
Lemma malformed_span_after_empty_context_is_fatal :
  intstr_to_intlist (line "5 2") = Ok [5; 2]
  /\ body 0 1 demo_word2id demo_mcids 5 5 3 false (line "") (line "q") (line "5 2")
     = Raise ValueError
  /\ run 0 1 demo_word2id demo_mcids 2 5 5 3 2 false 1
       (get_batch_generator [""; "a"] ["q"; "q"] ["5 2"; "0 0"] [])
     = ([], Raised ValueError).
Proof. repeat split; vm_compute; reflexivity. Qed.

Lemma malformed_span_witness :
  body 0 1 demo_word2id demo_mcids 5 5 3 false (line "the cat") (line "a cat") (line "5 2")
  = Ok Skipped
  /\ read_loop 0 1 demo_word2id demo_mcids 2 5 5 3 false
       (line "the cat") (line "a cat") (line "5 2") ["a"] ["the"] ["0 0"] []
     = next_pass 0 1 demo_word2id demo_mcids 2 5 5 3 false ["a"] ["the"] ["0 0"] [].
Proof.
  apply (malformed_span_skipped 0 1 demo_word2id demo_mcids 2 5 5 3 false
           (line "the cat") (line "a cat") (line "5 2") ["a"] ["the"] ["0 0"] []
           5 2).
  - reflexivity.
  - reflexivity.
  - reflexivity.
  - vm_compute. discriminate.
  - left. lia.
  - vm_compute. reflexivity.
  - lia.
Defined.

Example mask_sum_rows_ex :
  Forall (fun batch =>
            Forall2 (fun row toks =>
                       Forall (fun x => x <> 0)
                              (firstn 3 (map (word_id 1 demo_word2id) toks))
                       /\ row_sum row = Z.of_nat (Nat.min (length toks) 3))
                    (Batch.context_mask batch) (Batch.context_tokens batch))
         (run 0 1 demo_word2id demo_mcids 2 3 2 2 2 false 5
            (get_batch_generator ["a b c"; "a b"; "c"; "d e f g"]
               ["q"; "q r s"; "q r"; "z"] ["0 1"; "0 0"; "0 0"; "1 0"]
               [1]%nat)).1.
Proof. vm_compute. repeat constructor; discriminate. Qed.

Example mask_sum_ex :
  map (fun batch => map row_sum (Batch.context_mask batch))
      (run 0 1 demo_word2id demo_mcids 2 3 2 2 2 false 5
         (get_batch_generator ["a b c"; "a b"; "c"; "d e f g"]
            ["q"; "q r s"; "q r"; "z"] ["0 1"; "0 0"; "0 0"; "1 0"]
            [1]%nat)).1
  = [[3; 2]; [1]].
Proof. vm_compute. reflexivity. Qed.

(** C9 fails as stated: the two character ids of [Ab] are already followed
    by one [PAD_ID] in the assembled example when [word_len = 3]. *)
Lemma char_ids_already_padded :
  exists e,
    body 0 1 demo_word2id demo_mcids 5 5 3 false (line "Ab") (line "q") (line "0 0")
    = Ok (Kept e)
    /\ ex_char_ids e = [[2; 3; 0]]
    /\ Nat.min (String.length "Ab") 3 = 2%nat.
Proof. eexists. split; [vm_compute; reflexivity|]. split; reflexivity. Qed.

Example char_ids_ex :
  char_ids_of 0 1 3 ["Hello!"; "a"] = Ok [[9; 6; 13]; [2; 0; 0]].
Proof. vm_compute. reflexivity. Qed.

Lemma mask_sum_witness :
  Forall (fun batch =>
            Forall2 (fun row toks =>
                       Forall (fun x => x <> 0)
                              (firstn 3 (map (word_id 1 demo_word2id) toks)) ->
                       row_sum row = Z.of_nat (Nat.min (length toks) 3))
                    (Batch.context_mask batch) (Batch.context_tokens batch)
            /\ Forall2 (fun row toks =>
                          Forall (fun x => x <> 0)
                                 (firstn 2 (map (word_id 1 demo_word2id) toks)) ->
                          row_sum row = Z.of_nat (Nat.min (length toks) 2))
                       (Batch.qn_mask batch) (Batch.qn_tokens batch))
         (run 0 1 demo_word2id demo_mcids 2 3 2 2 2 false 5
            (get_batch_generator ["a b c"; "a b"; "c"; "d e f g"]
               ["q"; "q r s"; "q r"; "z"] ["0 1"; "0 0"; "0 0"; "1 0"]
               [1]%nat)).1.
Proof.
  apply (mask_sum_is_capped_length 0 1 demo_word2id demo_mcids 2 3 2 2 2 false).
Defined.

(** A token whose id is [PAD_ID] is not counted by the mask. *)
Example mask_sum_pad_token_ex :
  map (fun batch => map row_sum (Batch.context_mask batch))
      (run 0 1 demo_word2id demo_mcids 2 3 2 2 2 false 5
         (get_batch_generator ["the <pad> cat"] ["a"] ["0 0"] [])).1
  = [[2]].
Proof. vm_compute. reflexivity. Qed.

Lemma run_terminates_witness :
  (run 0 1 demo_word2id demo_mcids 2 3 2 2 2 false 5
     (get_batch_generator ["a b c"; "a b"; "c"; "d e f g"]
        ["q"; "q r s"; "q r"; "z"] ["0 1"; "0 0"; "0 0"; "1 0"] [1]%nat)).2
  = Exhausted
  \/ exists e,
      (run 0 1 demo_word2id demo_mcids 2 3 2 2 2 false 5
         (get_batch_generator ["a b c"; "a b"; "c"; "d e f g"]
            ["q"; "q r s"; "q r"; "z"] ["0 1"; "0 0"; "0 0"; "1 0"] [1]%nat)).2
      = Raised e.
Proof.
  apply (run_terminates 0 1 demo_word2id demo_mcids 2 3 2 2 2 false 5).
  simpl. lia.
Defined.

(** 162 line-triples and batches of one example: the first refill pools
    160 examples and drops the triple it has read ahead, the second one
    pools the last triple, so 161 examples are yielded. *)
Example read_ahead_ex :
  length
    (run 0 1 demo_word2id demo_mcids 1 3 2 2 2 false 200
       (get_batch_generator (repeat "the cat" 162) (repeat "a" 162)
          (repeat "0 0" 162) [])).1
  = 161%nat.
Proof. vm_compute. reflexivity. Qed.

Lemma read_ahead_witness :
  exists e,
    body 0 1 demo_word2id demo_mcids 3 2 2 false (line "the cat") (line "a") (line "0 0")
    = Ok (Kept e)
    /\ read_loop 0 1 demo_word2id demo_mcids 1 3 2 2 false
         (line "the cat") (line "a") (line "0 0")
         ["a cat"; "the"] ["the"; "a"] ["1 1"; "0 0"] (repeat e 159)
       = Ok (repeat e 159 ++ [e], Files (drop 1 ["a cat"; "the"])
                                    (drop 1 ["the"; "a"]) (drop 1 ["1 1"; "0 0"])).
Proof.
  eexists. split; [vm_compute; reflexivity|].
  apply (read_ahead_dropped_at_cap 0 1 demo_word2id demo_mcids 1 3 2 2 false).
  - reflexivity.
  - vm_compute. reflexivity.
  - vm_compute. reflexivity.
Defined.

Lemma split_join_round_trip_witness :
  split_by_whitespace (line (join_space ["the"; "cat"; "sat"]))
  = ["the"; "cat"; "sat"].
Proof.
  apply (split_join_round_trip ["the"; "cat"; "sat"]).
  repeat (constructor; [split; [discriminate|repeat constructor]|]).
  constructor.
Defined.

Lemma ans_tokens_of_span_witness :
  exists e,
    body 0 1 demo_word2id demo_mcids 3 2 2 false
      (line "the cat sat on a mat") (line "a") (line "1 4")
    = Ok (Kept e)
    /\ exists start end_,
        ex_ans_span e = [start; end_] /\ start <= end_
        /\ (length (ex_ans_tokens e) <= Z.to_nat (end_ - start + 1))%nat
        /\ (0 <= start -> end_ < Z.of_nat (length (ex_context_tokens e)) ->
            ex_ans_tokens e
            = take (Z.to_nat (end_ - start + 1))
                   (drop (Z.to_nat start) (ex_context_tokens e))
            /\ length (ex_ans_tokens e) = Z.to_nat (end_ - start + 1))
        /\ (0 <= start -> Z.of_nat (length (ex_context_tokens e)) <= end_ ->
            ex_ans_tokens e = drop (Z.to_nat start) (ex_context_tokens e)).
Proof.
  eexists. split; [vm_compute; reflexivity|].
  apply (ans_tokens_of_span 0 1 demo_word2id demo_mcids 3 2 2 false
           (line "the cat sat on a mat") (line "a") (line "1 4")).
  vm_compute. reflexivity.
Defined.

Lemma char_mask_counts_characters_witness :
  Forall (fun batch =>
            map (map row_sum) (Batch.char_mask batch)
            = map (fun toks =>
                     pad_to 0 3
                       (map (fun tok =>
                               Z.of_nat (Nat.min (String.length tok) 2))
                            (firstn 3 toks)))
                  (Batch.context_tokens batch)
            /\ map (map row_sum) (Batch.charQ_mask batch)
               = map (fun toks =>
                        pad_to 0 2
                          (map (fun tok =>
                                  Z.of_nat (Nat.min (String.length tok) 2))
                               (firstn 2 toks)))
                     (Batch.qn_tokens batch))
         (run 0 1 demo_word2id demo_mcids 2 3 2 2 2 false 5
            (get_batch_generator ["a b c"; "a b"; "c"; "d e f g"]
               ["q"; "q r s"; "q r"; "z"] ["0 1"; "0 0"; "0 0"; "1 0"]
               [1]%nat)).1.
Proof.
  apply (char_mask_counts_characters 0 1 demo_word2id demo_mcids 2 3 2 2 2 false).
  - left. lia.
  - discriminate.
Defined.

(** Four line-triples, one of them skipped for its span: three examples
    in two batches, sorted by the length of the truncated question. *)
Example stream_rows_ex :
  map batch_rows
      (run 0 1 demo_word2id demo_mcids 2 3 2 2 2 false 5
         (get_batch_generator ["a b c"; "a b"; "c"; "d e f g"]
            ["q"; "q r s"; "q r"; "z"] ["0 1"; "0 0"; "0 0"; "1 0"]
            [1]%nat)).1
  = [[(["a"; "b"; "c"], (["q"], ([0; 1], ["a"; "b"])));
      (["a"; "b"], (["q"; "r"; "s"], ([0; 0], ["a"])))];
     [(["c"], (["q"; "r"], ([0; 0], ["c"])))]].
Proof. vm_compute. reflexivity. Qed.

Lemma stream_yields_each_example_once_witness :
  exists K,
    kept_examples 0 1 demo_word2id demo_mcids 3 2 2 false
      (zip3 ["a b c"; "a b"; "c"; "d e f g"] ["q"; "q r s"; "q r"; "z"]
         ["0 1"; "0 0"; "0 0"; "1 0"])
    = Ok K
    /\ exists batches,
        run 0 1 demo_word2id demo_mcids 2 3 2 2 2 false 5
          (get_batch_generator ["a b c"; "a b"; "c"; "d e f g"]
             ["q"; "q r s"; "q r"; "z"] ["0 1"; "0 0"; "0 0"; "1 0"]
             [1]%nat)
        = (batches, Exhausted)
        /\ length batches = ((length K + 2 - 1) / 2)%nat
        /\ Permutation (concat (map batch_rows batches)) (map example_row K).
Proof.
  eexists. split; [vm_compute; reflexivity|].
  apply (stream_yields_each_example_once 0 1 demo_word2id demo_mcids
           2 3 2 2 2 false).
  - discriminate.
  - vm_compute. reflexivity.
  - cbn [length]. lia.
  - cbn [length]. lia.
Defined.

Lemma run_pool_cap_witness :
  exists pool fs',
    next_pass 0 1 demo_word2id demo_mcids 2 3 2 2 false
      ["a b c"; "a b"] ["q"; "q r s"] ["0 1"; "0 0"] []
    = Ok (pool, fs')
    /\ (length pool <= 2 * 160)%nat
    /\ refill_batches 0 1 demo_word2id demo_mcids 2 3 2 2 false []
         (Files ["a b c"; "a b"] ["q"; "q r s"] ["0 1"; "0 0"]) [1]%nat
       = Ok ((shuffle
                ([] ++ map zip_star (slices 2 (sorted qn_length pool)))
                [1]%nat).1,
             fs',
             (shuffle
                ([] ++ map zip_star (slices 2 (sorted qn_length pool)))
                [1]%nat).2).
Proof.
  eexists. eexists. split; [vm_compute; reflexivity|].
  apply (pool_cap 0 1 demo_word2id demo_mcids 2 3 2 2 false []
           (Files ["a b c"; "a b"] ["q"; "q r s"] ["0 1"; "0 0"]) [1]%nat).
  - discriminate.
  - vm_compute. reflexivity.
Defined.

(** With [batch_size = 0] three examples are pooled against a cap of 0
    before [xrange] raises. *)
Example refill_zero_pool_ex :
  (exists pool fs',
      next_pass 0 1 demo_word2id demo_mcids 0 3 2 2 false
        ["a b c"; "a b"; "c"] ["q"; "q r s"; "q r"] ["0 1"; "0 0"; "0 0"] []
      = Ok (pool, fs')
      /\ length pool = 3%nat)
  /\ refill_batches 0 1 demo_word2id demo_mcids 0 3 2 2 false []
       (Files ["a b c"; "a b"; "c"] ["q"; "q r s"; "q r"]
          ["0 1"; "0 0"; "0 0"]) [1]%nat
     = Raise ValueError.
Proof.
  split; [eexists; eexists; split|]; vm_compute; reflexivity.
Qed.

(** With [batch_size = 0] an answer line of three integers, met after
    the first example, still ends the refill in [AssertionError]. *)
Example refill_zero_assertion_ex :
  refill_batches 0 1 demo_word2id demo_mcids 0 3 2 2 false []
    (Files ["a b c"; "a b"] ["q"; "q r s"] ["0 1"; "0 0 0"]) [1]%nat
  = Raise AssertionError.
Proof. vm_compute. reflexivity. Qed.

Lemma refill_zero_batch_size_witness :
  exists K,
    kept_examples 0 1 demo_word2id demo_mcids 3 2 2 false
      (zip3 ["a b c"; "a b"; "c"] ["q"; "q r s"; "q r"]
         ["0 1"; "0 0"; "0 0"])
    = Ok K
    /\ (exists fs',
           next_pass 0 1 demo_word2id demo_mcids 0 3 2 2 false
             ["a b c"; "a b"; "c"] ["q"; "q r s"; "q r"]
             ["0 1"; "0 0"; "0 0"] []
           = Ok (K, fs')
           /\ exhausted fs')
    /\ refill_batches 0 1 demo_word2id demo_mcids 0 3 2 2 false []
         (Files ["a b c"; "a b"; "c"] ["q"; "q r s"; "q r"]
            ["0 1"; "0 0"; "0 0"]) [1]%nat
       = Raise ValueError.
Proof.
  eexists. split; [vm_compute; reflexivity|].
  destruct (refill_zero_batch_size 0 1 demo_word2id demo_mcids 0 3 2 2 false []
              (Files ["a b c"; "a b"; "c"] ["q"; "q r s"; "q r"]
                 ["0 1"; "0 0"; "0 0"]) [1]%nat) as [Hclean _].
  - reflexivity.
  - apply Hclean. vm_compute. reflexivity.
Defined.
